(** * The price-search service [cost.py]: credential store, price query and
      session handling, embedded as state-passing functions.

    Conventions of the embedding.
    - A Python [str] is a Rocq [string], one [ascii] per character (code
      points below 128); [len] is [String.length].
    - [hashlib.sha256(..).hexdigest()] is a parameter of the development.
    - The S3 bucket, the module-level global [user_data], Streamlit's
      [st.session_state] and the logger are the fields of [World].  What the
      network and the clock decide in one script run (does [get_object] or
      [put_object] raise, what [datetime.now()] prints) is an [Env].
    - An object of the bucket is held decoded: [JsonUsers t] is a body that
      [json.loads] turns into the dict [t] (and what [json.dumps t] writes),
      [SqlPrices rows] a database file whose [prices] table holds [rows];
      [Garbage] is neither.
    - A function that may raise returns an [outcome]; [try: .. except
      Exception] is [try_except].  Messages shown by [st.error],
      [st.warning], [st.success] are the value a page returns. *)

From Stdlib Require Import ZArith Ascii String List Lia.
From stdpp Require Import base option strings gmap list sorting.

Local Open Scope string_scope.

(** ** Data model *)

(** A value of the users dict: [{"password": .., "created_at": ..}]. *)
Record UserRecord := {
  stored_password : string;     (* key "password": the hex digest *)
  created_at : string           (* key "created_at": [str(datetime.now())] *)
}.

Abbreviation UserTable := (gmap string UserRecord).

(** A row of the [prices] table.  [product_name] is [None] for a NULL/NaN
    cell. *)
Record PriceRecord := {
  product_name : option string;
  price : Z;
  update_date : string
}.

(** The three entries of the sort select box: "가격 낮은순", "가격 높은순",
    "이름순". *)
Inductive sort_order := PRICE_ASC | PRICE_DESC | NAME_ASC.

Record QuerySpec := {
  search_term : string;
  min_price : Z;
  max_price : Z;
  sort_key : sort_order
}.

(** ** The bucket, exceptions, the log *)

Inductive s3_key := USER_DATA_KEY | PRICE_DB_KEY.

Inductive Blob :=
| JsonUsers (t : UserTable)
| SqlPrices (rows : list PriceRecord)
| Garbage.

Inductive exn :=
| ClientError (key : s3_key)      (* boto3: the request failed *)
| NoSuchKey (key : s3_key)        (* boto3: no such object *)
| DecodeError                     (* json.loads: the body is no JSON *)
| NotAConnection                  (* pandas: [con] is no database connection *)
| PatternError                    (* re.error: the pattern does not compile *)
| DisplayError.                   (* a format of the displayed frame fails *)

Inductive outcome (A : Type) :=
| Return (a : A)
| Raise (e : exn).
Arguments Return {A} a.
Arguments Raise {A} e.

Inductive S3Call :=
| GetObject (key : s3_key)
| PutObject (key : s3_key) (body : Blob).

(** One constructor per [logger] call of the source. *)
Inductive LogRecord :=
| LoadUsersFailed (e : exn)            (* error   "유저 데이터 로드 실패" *)
| LoadPricesFailed (e : exn)           (* error   "가격 데이터 로드 실패" *)
| SaveUsersOk                          (* info    "유저 데이터 저장 성공" *)
| SaveUsersFailed (e : exn)            (* error   "유저 데이터 저장 실패" *)
| ValidateLoginFailed (e : exn)        (* error   "로그인 검증 실패" *)
| LoginOk (username : string)          (* info    "사용자 로그인 성공" *)
| LoginRejected (username : string)    (* warning "로그인 실패 시도" *)
| NewUser (username : string)          (* info    "새 사용자 등록" *)
| SearchDone (term : string) (n : nat) (* info    "검색 완료" *)
| SearchEmpty (term : string)          (* info    "검색 결과 없음" *)
| LoggedOut.                           (* info    "사용자 로그아웃" *)

(** [st.session_state]: a key is [None] until [main] initialises it. *)
Record SessionState := {
  ss_logged_in : option bool;
  ss_username : option (option string)
}.

Record World := {
  users_obj : option Blob;        (* s3://project-0424/users.json *)
  prices_obj : option Blob;       (* s3://project-0424/가격비교.db *)
  user_data : UserTable;          (* the module-level global, line 35 *)
  session_state : SessionState;
  log : list LogRecord;
  s3_calls : list S3Call
}.

Record Env := {
  get_fails : bool;               (* [get_object] raises for this run *)
  put_fails : bool;               (* [put_object] raises for this run *)
  now : string                    (* [str(datetime.datetime.now())] *)
}.

(** ** A state-and-exception monad for the script *)

Definition M (A : Type) : Type := Env -> World -> outcome A * World.

Definition ret {A} (a : A) : M A := fun _ w => (Return a, w).

Definition raise {A} (x : exn) : M A := fun _ w => (Raise x, w).

Definition bind {A B} (c : M A) (k : A -> M B) : M B :=
  fun e w =>
    match c e w with
    | (Return a, w1) => k a e w1
    | (Raise x, w1) => (Raise x, w1)
    end.

(** [try: body except Exception as x: handler x]; what [body] did to the
    world before raising stays done. *)
Definition try_except {A} (body : M A) (handler : exn -> M A) : M A :=
  fun e w =>
    match body e w with
    | (Return a, w1) => (Return a, w1)
    | (Raise x, w1) => handler x e w1
    end.

Notation "'let*' x ':=' c 'in' k" := (bind c (fun x => k))
  (at level 10, x name, c at level 100, k at level 200).
Notation "'do' c 'then' k" := (bind c (fun _ => k))
  (at level 10, c at level 100, k at level 200).

Definition ask : M Env := fun e w => (Return e, w).
Definition get_world : M World := fun _ w => (Return w, w).
Definition modify (f : World -> World) : M unit := fun _ w => (Return tt, f w).

Definition with_log (r : LogRecord) (w : World) : World :=
  {| users_obj := users_obj w; prices_obj := prices_obj w;
     user_data := user_data w; session_state := session_state w;
     log := log w ++ [r]; s3_calls := s3_calls w |}.

Definition with_call (c : S3Call) (w : World) : World :=
  {| users_obj := users_obj w; prices_obj := prices_obj w;
     user_data := user_data w; session_state := session_state w;
     log := log w; s3_calls := s3_calls w ++ [c] |}.

Definition with_object (key : s3_key) (b : Blob) (w : World) : World :=
  {| users_obj := match key with USER_DATA_KEY => Some b | _ => users_obj w end;
     prices_obj := match key with PRICE_DB_KEY => Some b | _ => prices_obj w end;
     user_data := user_data w; session_state := session_state w;
     log := log w; s3_calls := s3_calls w |}.

Definition with_session (s : SessionState) (w : World) : World :=
  {| users_obj := users_obj w; prices_obj := prices_obj w;
     user_data := user_data w; session_state := s;
     log := log w; s3_calls := s3_calls w |}.

Definition logger (r : LogRecord) : M unit := modify (with_log r).

Definition object_at (key : s3_key) (w : World) : option Blob :=
  match key with USER_DATA_KEY => users_obj w | PRICE_DB_KEY => prices_obj w end.

(** [s3_client.get_object(Bucket=BUCKET_NAME, Key=key)] *)
Definition get_object (key : s3_key) : M Blob :=
  do modify (with_call (GetObject key)) then
  let* e := ask in
  let* w := get_world in
  if get_fails e then raise (ClientError key)
  else match object_at key w with
       | Some b => ret b
       | None => raise (NoSuchKey key)
       end.

(** [s3_client.put_object(Bucket=BUCKET_NAME, Key=key, Body=body)] *)
Definition put_object (key : s3_key) (body : Blob) : M unit :=
  do modify (with_call (PutObject key body)) then
  let* e := ask in
  if put_fails e then raise (ClientError key)
  else modify (with_object key body).

Definition json_loads (b : Blob) : M UserTable :=
  match b with
  | JsonUsers t => ret t
  | _ => raise DecodeError
  end.

Definition json_dumps (t : UserTable) : Blob := JsonUsers t.

(** [pd.read_sql_table('prices', con)] reads a table through the database
    connection [con].  Line 60 passes the body of the S3 response as [con];
    a response body is no connection, whatever bytes it holds, so the call
    raises. *)
Definition read_sql_table (con : Blob) : M (list PriceRecord) :=
  raise NotAConnection.

(** ** Credential store *)

(** Lines 42-51. *)
Definition load_user_data : M UserTable :=
  try_except
    (let* user_obj := get_object USER_DATA_KEY in
     json_loads user_obj)
    (fun x => do logger (LoadUsersFailed x) then ret ∅).

(** Lines 54-63; [pd.DataFrame()] is the empty frame. *)
Definition load_price_data : M (list PriceRecord) :=
  try_except
    (let* price_obj := get_object PRICE_DB_KEY in
     read_sql_table price_obj)
    (fun x => do logger (LoadPricesFailed x) then ret []).

(** Lines 66-77.  The body reads the name [user_data]; the parameter is
    called [user_Dict], so the name resolves to the module-level global. *)
Definition save_user_data (user_Dict : UserTable) : M bool :=
  try_except
    (let* w := get_world in
     do put_object USER_DATA_KEY (json_dumps (user_data w)) then
     do logger SaveUsersOk then
     ret true)
    (fun x => do logger (SaveUsersFailed x) then ret false).

(** Python truthiness of a [str]: [not s] holds for the empty string. *)
Definition py_not (s : string) : bool :=
  match s with EmptyString => true | _ => false end.

Section Credentials.

(** [hashlib.sha256(password.encode()).hexdigest()] *)
Variable sha256_hexdigest : string -> string.

Definition hash_password (password : string) : string :=
  sha256_hexdigest password.

(** Lines 80-91.  [user_data] here is a local of the function. *)
Definition validate_login (username password : string) : M bool :=
  if py_not username || py_not password then ret false
  else
    try_except
      (let* user_data := load_user_data in
       let hashed_password := hash_password password in
       ret (match user_data !! username with
            | Some r => bool_decide (stored_password r = hashed_password)
            | None => false
            end))
      (fun x => do logger (ValidateLoginFailed x) then ret false).

(** What the sign-up form shows after a submit. *)
Inductive signup_view :=
| UsernameLengthError      (* "아이디는 4-20자 사이여야 합니다." *)
| PasswordLengthError      (* "비밀번호는 8자 이상이어야 합니다." *)
| PasswordMismatchError    (* "비밀번호가 일치하지 않습니다." *)
| UsernameTakenError       (* "이미 존재하는 아이디입니다." *)
| SignupCompleted          (* "회원가입이 완료되었습니다!" *)
| SignupSaveError.         (* "회원가입 중 오류가 발생했습니다." *)

(** Lines 123-151, the body under [if submit_button].  [user_data] is a
    local of the function: the dict returned by [load_user_data]. *)
Definition signup_page (new_username new_password confirm_password : string)
  : M signup_view :=
  if (String.length new_username <? 4)%nat || (20 <? String.length new_username)%nat
  then ret UsernameLengthError
  else if (String.length new_password <? 8)%nat
  then ret PasswordLengthError
  else if negb (bool_decide (new_password = confirm_password))
  then ret PasswordMismatchError
  else
    let* user_data := load_user_data in
    if bool_decide (is_Some (user_data !! new_username))
    then ret UsernameTakenError
    else
      let* e := ask in
      let user_data :=
        <[new_username := {| stored_password := hash_password new_password;
                             created_at := now e |}]> user_data in
      let* saved := save_user_data user_data in
      if saved
      then do logger (NewUser new_username) then ret SignupCompleted
      else ret SignupSaveError.

Inductive login_view :=
| LoginSucceeded           (* "로그인에 성공했습니다!", then a rerun *)
| LoginError.              (* "아이디 또는 비밀번호가 올바르지 않습니다." *)

(** Lines 102-111, the body under [if submit_button]. *)
Definition login_page (username password : string) : M login_view :=
  let* ok := validate_login username password in
  if ok
  then
    do modify (fun w => with_session
              {| ss_logged_in := Some true;
                 ss_username := ss_username (session_state w) |} w) then
    do modify (fun w => with_session
              {| ss_logged_in := ss_logged_in (session_state w);
                 ss_username := Some (Some username) |} w) then
    do logger (LoginOk username) then
    ret LoginSucceeded
  else
    do logger (LoginRejected username) then
    ret LoginError.

End Credentials.

(** Lines 212-215. *)
Definition logout : M unit :=
  do modify (fun w => with_session
            {| ss_logged_in := Some false;
               ss_username := ss_username (session_state w) |} w) then
  do modify (fun w => with_session
            {| ss_logged_in := ss_logged_in (session_state w);
               ss_username := Some None |} w) then
  logger LoggedOut.

(** ** Price query engine *)

(** [Series.str.contains(pat, case=False, na=False)] keeps pandas' default
    [regex=True]: [pat] is compiled as a regular expression and each name is
    tested with [re.search] under [re.IGNORECASE].  The embedding covers the
    patterns made of ordinary characters and [.]; [re_compile] is [None] on
    a pattern that uses any other special character. *)
Inductive atom :=
| Lit (c : ascii)       (* an ordinary character *)
| Dot.                  (* [.]: any character but a newline *)

Definition is_special (c : ascii) : bool :=
  bool_decide (c ∈ list_ascii_of_string ".^$*+?{}[]\|()").

Fixpoint re_compile (pat : string) : option (list atom) :=
  match pat with
  | EmptyString => Some []
  | String c rest =>
      if bool_decide (c = "."%char) then (Dot ::.) <$> re_compile rest
      else if is_special c then None
      else (Lit c ::.) <$> re_compile rest
  end.

(** ASCII case folding, as [re.IGNORECASE] does on ASCII letters. *)
Definition lower (c : ascii) : ascii :=
  let n := nat_of_ascii c in
  if (65 <=? n)%nat && (n <=? 90)%nat then ascii_of_nat (n + 32) else c.

Definition atom_matches (a : atom) (c : ascii) : bool :=
  match a with
  | Lit l => bool_decide (lower l = lower c)
  | Dot => negb (bool_decide (c = "010"%char))
  end.

(** The pattern matches at the start of [s]. *)
Fixpoint match_here (pat : list atom) (s : string) : bool :=
  match pat with
  | [] => true
  | a :: pat' =>
      match s with
      | EmptyString => false
      | String c s' => atom_matches a c && match_here pat' s'
      end
  end.

(** [re.search]: the pattern matches at some position of [s]. *)
Fixpoint re_search (pat : list atom) (s : string) : bool :=
  match_here pat s ||
  match s with
  | EmptyString => false
  | String _ s' => re_search pat s'
  end.

(** One cell of [str.contains(.., na=False)]: a missing name gives False. *)
Definition str_contains (pat : list atom) (name : option string) : bool :=
  match name with
  | Some s => re_search pat s
  | None => false
  end.

(** Lines 181-185: one entry of [mask]. *)
Definition mask (pat : list atom) (min_price max_price : Z) (r : PriceRecord) : bool :=
  str_contains pat (product_name r) &&
  (min_price <=? price r)%Z &&
  (price r <=? max_price)%Z.

(** Line 186: [price_df[mask]], rows kept in the order of the frame. *)
Definition filtered_df (q : QuerySpec) (price_df : list PriceRecord)
  : option (list PriceRecord) :=
  pat ← re_compile (search_term q);
  Some (List.filter (mask pat (min_price q) (max_price q)) price_df).

(** Order of two names in an object column: strings by code point, a
    missing name after every string. *)
Definition name_le (a b : option string) : Prop :=
  match a, b with
  | Some x, Some y => String.leb x y = true
  | _, None => True
  | None, Some _ => False
  end.

(** The order [sort_values] establishes for each entry of the select box
    (lines 189-194). *)
Definition sort_le (k : sort_order) : relation PriceRecord :=
  match k with
  | PRICE_ASC => fun a b => (price a <= price b)%Z
  | PRICE_DESC => fun a b => (price b <= price a)%Z
  | NAME_ASC => fun a b => name_le (product_name a) (product_name b)
  end.

(** [DataFrame.sort_values(by)] is called without [kind], so pandas sorts
    with its default [kind='quicksort'], which it documents as not stable
    (only 'mergesort' and 'stable' are).  What the call guarantees is that
    the result holds the same rows, in the order of the column; how rows
    with equal keys are arranged is left to the sorting routine.  The
    embedding is therefore a relation that admits every arrangement the call
    may give: what is proved of all of them holds of the one pandas
    returns, and nothing is concluded from an arrangement being admitted. *)
Definition sort_values (k : sort_order) (df sorted : list PriceRecord) : Prop :=
  sorted ≡ₚ df ∧ StronglySorted (sort_le k) sorted.

Inductive search_view :=
| SearchResults (rows : list PriceRecord)  (* count and [st.dataframe] *)
| NoResultsWarning                         (* "검색 결과가 없습니다." *)
| DataUnavailableError.                    (* "가격 데이터를 불러오는데 실패했습니다." *)

(** [DataFrame.empty] *)
Definition df_empty (df : list PriceRecord) : bool :=
  match df with [] => true | _ => false end.

(** The rows [price_df[mask]] may hold (lines 181-186).  For a term of the
    embedded fragment they are those of [filtered_df].  For any other term
    the embedding does not say which names the pattern finds: it admits
    every test on names, under the same price bounds and with missing names
    dropped. *)
Inductive kept_rows (q : QuerySpec) (price_df : list PriceRecord)
  : list PriceRecord -> Prop :=
| kept_modelled filtered :
    filtered_df q price_df = Some filtered ->
    kept_rows q price_df filtered
| kept_other (found : string -> bool) :
    re_compile (search_term q) = None ->
    kept_rows q price_df
      (List.filter
         (fun r => match product_name r with Some n => found n | None => false end
                   && (min_price q <=? price r)%Z && (price r <=? max_price q)%Z)
         price_df).

(** Lines 179-209: what the page does with the frame [price_df] it was
    handed, from the world [w1] the load left.  Where the source does not
    fix the outcome the relation admits each one possible: a term outside
    the embedded fragment may fail to compile, and the display of a frame
    may fail on a format; in both cases the exception leaves the page before
    anything is logged. *)
Inductive search_frame (q : QuerySpec) (price_df : list PriceRecord) (w1 : World)
  : outcome search_view -> World -> Prop :=
| frame_unavailable :
    df_empty price_df = true ->
    search_frame q price_df w1 (Return DataUnavailableError) w1
| frame_pattern_error :
    df_empty price_df = false ->
    re_compile (search_term q) = None ->
    search_frame q price_df w1 (Raise PatternError) w1
| frame_no_results filtered :
    df_empty price_df = false ->
    kept_rows q price_df filtered ->
    sort_values (sort_key q) filtered [] ->
    search_frame q price_df w1 (Return NoResultsWarning)
      (with_log (SearchEmpty (search_term q)) w1)
| frame_results filtered sorted :
    df_empty price_df = false ->
    kept_rows q price_df filtered ->
    sort_values (sort_key q) filtered sorted ->
    df_empty sorted = false ->
    search_frame q price_df w1 (Return (SearchResults sorted))
      (with_log (SearchDone (search_term q) (length sorted)) w1)
| frame_display_error filtered sorted :
    df_empty price_df = false ->
    kept_rows q price_df filtered ->
    sort_values (sort_key q) filtered sorted ->
    df_empty sorted = false ->
    search_frame q price_df w1 (Raise DisplayError) w1.

(** Lines 176-209, the body under [if st.button("검색")]: the views and
    worlds a search that returns may end in.  The frame is the one
    [load_price_data] returns. *)
Definition search_price (q : QuerySpec) (e : Env) (w : World)
    (v : search_view) (w' : World) : Prop :=
  ∃ price_df w1,
    load_price_data e w = (Return price_df, w1) ∧
    search_frame q price_df w1 (Return v) w'.

(** ** The script: one run of [main] *)

(** What the user did to trigger the run. *)
Inductive Action :=
| NoAction
| LoginSubmit (username password : string)
| SignupSubmit (new_username new_password confirm_password : string)
| LogoutClick
| SearchClick (q : QuerySpec).

Inductive main_view :=
| AnonymousHome                       (* the two forms, nothing submitted *)
| LoginView (v : login_view)
| SignupView (v : signup_view)
| MemberHome                          (* greeting, search form *)
| LogoutRerun                         (* [st.experimental_rerun()] *)
| SearchView (v : search_view).

(** Lines 226-229. *)
Definition init_session : M unit :=
  do modify (fun w =>
       match ss_logged_in (session_state w) with
       | None => with_session {| ss_logged_in := Some false;
                                 ss_username := ss_username (session_state w) |} w
       | Some _ => w
       end) then
  modify (fun w =>
       match ss_username (session_state w) with
       | None => with_session {| ss_logged_in := ss_logged_in (session_state w);
                                 ss_username := Some None |} w
       | Some _ => w
       end).

Definition is_logged_in (w : World) : bool :=
  match ss_logged_in (session_state w) with
  | Some true => true
  | _ => false
  end.

Section Script.

Variable sha256_hexdigest : string -> string.

(** Lines 218-249.  A widget reports a click only in a run that drew it:
    the login and sign-up forms are drawn for a logged-out session, the
    logout button and the search form for a logged-in one. *)
Definition main (a : Action) (e : Env) (w : World)
    (v : main_view) (w' : World) : Prop :=
  let w0 := snd (init_session e w) in
  if is_logged_in w0 then
    match a with
    | LogoutClick => (Return tt, w') = logout e w0 ∧ v = LogoutRerun
    | SearchClick q => ∃ sv, search_price q e w0 sv w' ∧ v = SearchView sv
    | _ => w' = w0 ∧ v = MemberHome
    end
  else
    match a with
    | LoginSubmit username password =>
        ∃ lv, login_page sha256_hexdigest username password e w0 = (Return lv, w')
              ∧ v = LoginView lv
    | SignupSubmit new_username new_password confirm_password =>
        ∃ sv, signup_page sha256_hexdigest new_username new_password
                confirm_password e w0 = (Return sv, w')
              ∧ v = SignupView sv
    | _ => w' = w0 ∧ v = AnonymousHome
    end.

(** A world in which the script starts: nothing logged, no call made, a
    fresh session, the global as line 35 leaves it; the bucket holds
    whatever it holds. *)
Definition start_world (users prices : option Blob) : World :=
  {| users_obj := users; prices_obj := prices; user_data := ∅;
     session_state := {| ss_logged_in := None; ss_username := None |};
     log := []; s3_calls := [] |}.

(** The worlds the script reaches by its own runs. *)
Inductive reachable : World -> Prop :=
| reach_start users prices : reachable (start_world users prices)
| reach_run w a e v w' : reachable w -> main a e w v w' -> reachable w'
| reach_other_writer w key b : reachable w -> reachable (with_object key b w).

End Script.

(** The two session states of the specification. *)
Inductive session := ANONYMOUS | AUTHENTICATED.

Definition session_of (w : World) : session :=
  if is_logged_in w then AUTHENTICATED else ANONYMOUS.

(** ** Vocabulary of the claims *)

(** The three validations of the form, as one boolean. *)
Definition form_valid (new_username new_password confirm_password : string) : bool :=
  negb ((String.length new_username <? 4)%nat || (20 <? String.length new_username)%nat)
  && negb (String.length new_password <? 8)%nat
  && bool_decide (new_password = confirm_password).

(** A search term with no character that is special in a regular
    expression. *)
Definition is_literal (term : string) : bool :=
  forallb (fun c => negb (is_special c)) (list_ascii_of_string term).

Fixpoint lits (term : string) : list atom :=
  match term with
  | EmptyString => []
  | String c rest => Lit c :: lits rest
  end.

Fixpoint lower_str (s : string) : string :=
  match s with
  | EmptyString => EmptyString
  | String c rest => String (lower c) (lower_str rest)
  end.

(** [term] occurs in [name] when letter case is ignored. *)
Definition contains_ci (term name : string) : Prop :=
  ∃ pre post, lower_str name = pre +:+ lower_str term +:+ post.


(** Every character is an ASCII one. *)
Definition is_ascii_str (s : string) : bool :=
  forallb (fun c => (nat_of_ascii c <? 128)%nat) (list_ascii_of_string s).

(** The shapes [st.session_state] takes: untouched, logged out with no
    name, or logged in under a non-empty name. *)
Definition session_wf (s : SessionState) : Prop :=
  s = {| ss_logged_in := None; ss_username := None |} ∨
  s = {| ss_logged_in := Some false; ss_username := Some None |} ∨
  ∃ username, username ≠ "" ∧
    s = {| ss_logged_in := Some true; ss_username := Some (Some username) |}.

(** ** Sample data *)

Definition env_ok : Env :=
  {| get_fails := false; put_fails := false; now := "2025-04-24 09:00:00" |}.

Definition env_down : Env :=
  {| get_fails := true; put_fails := true; now := "2025-04-24 09:00:00" |}.

(** Stands for the digest where an example needs one. *)
Definition toy_digest (s : string) : string := "sha256:" +:+ s.

Definition row (name : string) (p : Z) : PriceRecord :=
  {| product_name := Some name; price := p; update_date := "2025-04-24" |}.

Definition widget_a : PriceRecord := row "Widget A" 100.

Definition widget_b : PriceRecord := row "Widget B" 50.

Definition gadget : PriceRecord := row "gadget" 200.

Definition example_table : list PriceRecord := [widget_a; widget_b; gadget].

Definition example_query : QuerySpec :=
  {| search_term := "widget"; min_price := 0; max_price := 150; sort_key := NAME_ASC |}.

Definition prices_world (rows : list PriceRecord) : World :=
  start_world None (Some (SqlPrices rows)).

(** Eighteen rows of one price. *)
Definition ties_table : list PriceRecord :=
  (fun name => row name 100) <$>
    ["P00"; "P01"; "P02"; "P03"; "P04"; "P05"; "P06"; "P07"; "P08";
     "P09"; "P10"; "P11"; "P12"; "P13"; "P14"; "P15"; "P16"; "P17"].

Definition ties_query : QuerySpec :=
  {| search_term := ""; min_price := 0; max_price := 1000000; sort_key := PRICE_ASC |}.

Definition alice_record : UserRecord :=
  {| stored_password := toy_digest "correct-pw"; created_at := "2025-04-24 08:00:00" |}.

(** A bucket in which "alice" is registered. *)
Definition users_world : World :=
  start_world (Some (JsonUsers {[ "alice" := alice_record ]})) None.

Definition inverted_query : QuerySpec :=
  {| search_term := "widget"; min_price := 150; max_price := 0; sort_key := PRICE_ASC |}.

Definition wide_query : QuerySpec :=
  {| search_term := "widget"; min_price := 0; max_price := 1000000;
     sort_key := NAME_ASC |}.

(** Two rows of one price, and a search by ascending price that matches
    both. *)
Definition tied_table : list PriceRecord := [row "Widget A" 100; row "Widget B" 100].

Definition tied_query : QuerySpec :=
  {| search_term := "widget"; min_price := 0; max_price := 1000000;
     sort_key := PRICE_ASC |}.

(** A search that matches no row of [example_table]. *)
Definition unmatched_query : QuerySpec :=
  {| search_term := "sprocket"; min_price := 0; max_price := 1000000;
     sort_key := PRICE_ASC |}.

(** Reads go through, writes fail. *)
Definition env_read_only : Env :=
  {| get_fails := false; put_fails := true; now := "2025-04-24 09:00:00" |}.

(** * Properties *)

#[global] Instance UserRecord_eq_dec : EqDecision UserRecord.
Proof. solve_decision. Defined.

#[global] Instance PriceRecord_eq_dec : EqDecision PriceRecord.
Proof. solve_decision. Defined.

(** ** Equations of the storage functions *)

Lemma load_user_data_eq e w :
  load_user_data e w =
    let w1 := with_call (GetObject USER_DATA_KEY) w in
    if get_fails e
    then (Return ∅, with_log (LoadUsersFailed (ClientError USER_DATA_KEY)) w1)
    else match users_obj w with
         | Some (JsonUsers t) => (Return t, w1)
         | Some _ => (Return ∅, with_log (LoadUsersFailed DecodeError) w1)
         | None => (Return ∅, with_log (LoadUsersFailed (NoSuchKey USER_DATA_KEY)) w1)
         end.
Proof.
  unfold load_user_data, try_except, get_object, bind, modify, ask, get_world.
  simpl. destruct (get_fails e); [reflexivity |].
  simpl. destruct (users_obj w) as [[t | rows |] |]; reflexivity.
Qed.

(** Every call ends in the handler: the request fails, the object is
    missing, or [read_sql_table] refuses the body it is handed. *)
Lemma load_price_data_eq e w :
  load_price_data e w =
    (Return [],
     with_log
       (LoadPricesFailed
          (if get_fails e then ClientError PRICE_DB_KEY
           else match prices_obj w with
                | Some _ => NotAConnection
                | None => NoSuchKey PRICE_DB_KEY
                end))
       (with_call (GetObject PRICE_DB_KEY) w)).
Proof.
  unfold load_price_data, try_except, get_object, read_sql_table, bind, modify,
    ask, get_world.
  simpl. destruct (get_fails e); [reflexivity |].
  simpl. destruct (prices_obj w) as [b |]; reflexivity.
Qed.

Lemma save_user_data_eq user_Dict e w :
  save_user_data user_Dict e w =
    let body := json_dumps (user_data w) in
    let w1 := with_call (PutObject USER_DATA_KEY body) w in
    if put_fails e
    then (Return false, with_log (SaveUsersFailed (ClientError USER_DATA_KEY)) w1)
    else (Return true, with_log SaveUsersOk (with_object USER_DATA_KEY body w1)).
Proof.
  unfold save_user_data, try_except, put_object, bind, modify, ask, get_world.
  simpl. destruct (put_fails e); reflexivity.
Qed.

(** The storage functions and the pages leave the global [user_data] as it
    is: no run of the script assigns it. *)
Lemma load_user_data_global e w :
  user_data (snd (load_user_data e w)) = user_data w.
Proof.
  rewrite load_user_data_eq. simpl.
  destruct (get_fails e); [reflexivity |].
  destruct (users_obj w) as [[t | rows |] |]; reflexivity.
Qed.

Lemma load_price_data_global e w :
  user_data (snd (load_price_data e w)) = user_data w.
Proof. rewrite load_price_data_eq. reflexivity. Qed.

Lemma save_user_data_global d e w :
  user_data (snd (save_user_data d e w)) = user_data w.
Proof. rewrite save_user_data_eq. simpl. destruct (put_fails e); reflexivity. Qed.

Lemma init_session_global e w :
  user_data (snd (init_session e w)) = user_data w.
Proof.
  unfold init_session, bind, modify. simpl.
  destruct (ss_logged_in (session_state w)); simpl;
    destruct (ss_username (session_state w)); reflexivity.
Qed.

Section CredentialFacts.

Variable sha256_hexdigest : string -> string.

Abbreviation validate_login := (validate_login sha256_hexdigest).
Abbreviation signup_page := (signup_page sha256_hexdigest).
Abbreviation login_page := (login_page sha256_hexdigest).

Lemma validate_login_eq username password e w :
  validate_login username password e w =
    if py_not username || py_not password then (Return false, w)
    else
      let r := load_user_data e w in
      (Return
         match r.1 with
         | Return t =>
             match t !! username with
             | Some u => bool_decide (stored_password u = sha256_hexdigest password)
             | None => false
             end
         | Raise _ => false
         end, r.2).
Proof.
  unfold validate_login. destruct (py_not username || py_not password); [reflexivity |].
  unfold try_except, bind. rewrite load_user_data_eq. simpl.
  destruct (get_fails e); [reflexivity |].
  destruct (users_obj w) as [[t | rows |] |]; reflexivity.
Qed.

Lemma validate_login_returns username password e w :
  ∃ b, (validate_login username password e w).1 = Return b.
Proof.
  rewrite validate_login_eq. destruct (py_not username || py_not password); eauto.
Qed.

Lemma validate_login_global username password e w :
  user_data (validate_login username password e w).2 = user_data w.
Proof.
  rewrite validate_login_eq. destruct (py_not username || py_not password); [reflexivity |].
  simpl. apply load_user_data_global.
Qed.

Lemma validate_login_session username password e w :
  session_state (validate_login username password e w).2 = session_state w.
Proof.
  rewrite validate_login_eq. destruct (py_not username || py_not password); [reflexivity |].
  simpl. rewrite load_user_data_eq. simpl.
  destruct (get_fails e); [reflexivity |].
  destruct (users_obj w) as [[t | rows |] |]; reflexivity.
Qed.

Lemma signup_page_valid_eq new_username new_password confirm_password e w :
  form_valid new_username new_password confirm_password = true ->
  signup_page new_username new_password confirm_password e w =
    let r := load_user_data e w in
    match r.1 with
    | Return t =>
        if bool_decide (is_Some (t !! new_username))
        then (Return UsernameTakenError, r.2)
        else
          let s := save_user_data
                     (<[new_username :=
                          {| stored_password := sha256_hexdigest new_password;
                             created_at := now e |}]> t) e r.2 in
          match s.1 with
          | Return true => (Return SignupCompleted, with_log (NewUser new_username) s.2)
          | Return false => (Return SignupSaveError, s.2)
          | Raise x => (Raise x, s.2)
          end
    | Raise x => (Raise x, r.2)
    end.
Proof.
  unfold form_valid, signup_page. intros Hv.
  apply andb_prop in Hv as [Hv Hc]. apply andb_prop in Hv as [Hu Hp].
  apply negb_true_iff in Hu, Hp. rewrite Hu, Hp, Hc. simpl.
  unfold bind at 1. destruct (load_user_data e w) as [[t | x] w1]; simpl; [| reflexivity].
  destruct (bool_decide (is_Some (t !! new_username))); [reflexivity |].
  unfold bind, ask, hash_password. simpl.
  destruct (save_user_data _ e w1) as [[[|] | x] w2]; reflexivity.
Qed.

Lemma signup_page_invalid_eq new_username new_password confirm_password e w :
  form_valid new_username new_password confirm_password = false ->
  signup_page new_username new_password confirm_password e w =
    (Return
       (if (String.length new_username <? 4)%nat || (20 <? String.length new_username)%nat
        then UsernameLengthError
        else if (String.length new_password <? 8)%nat then PasswordLengthError
        else PasswordMismatchError), w).
Proof.
  unfold form_valid, signup_page. intros Hv.
  destruct ((String.length new_username <? 4)%nat || (20 <? String.length new_username)%nat);
    [reflexivity |].
  destruct (String.length new_password <? 8)%nat; [reflexivity |].
  simpl in Hv. rewrite Hv. reflexivity.
Qed.

Lemma form_valid_iff new_username new_password confirm_password :
  form_valid new_username new_password confirm_password = true <->
  (4 <= String.length new_username <= 20)%nat ∧
  (8 <= String.length new_password)%nat ∧
  new_password = confirm_password.
Proof.
  unfold form_valid. rewrite !andb_true_iff, !negb_true_iff, orb_false_iff.
  rewrite !Nat.ltb_ge, bool_decide_eq_true. tauto.
Qed.

Lemma login_page_eq username password e w :
  login_page username password e w =
    let r := validate_login username password e w in
    match r.1 with
    | Return true =>
        (Return LoginSucceeded,
         with_log (LoginOk username)
           (with_session {| ss_logged_in := Some true;
                            ss_username := Some (Some username) |} r.2))
    | Return false => (Return LoginError, with_log (LoginRejected username) r.2)
    | Raise x => (Raise x, r.2)
    end.
Proof.
  unfold login_page, bind at 1.
  destruct (validate_login username password e w) as [[[|] | x] w1]; reflexivity.
Qed.

Lemma login_page_global username password e w :
  user_data (login_page username password e w).2 = user_data w.
Proof.
  rewrite login_page_eq. simpl.
  pose proof (validate_login_global username password e w) as Hg.
  destruct (validate_login username password e w) as [[[|] | x] w1]; exact Hg.
Qed.

Lemma signup_page_global new_username new_password confirm_password e w :
  user_data (signup_page new_username new_password confirm_password e w).2 = user_data w.
Proof.
  destruct (form_valid new_username new_password confirm_password) eqn:Hv.
  - rewrite signup_page_valid_eq by exact Hv. simpl.
    pose proof (load_user_data_global e w) as Hl.
    destruct (load_user_data e w) as [[t | x] w1]; simpl in *; [| exact Hl].
    destruct (bool_decide (is_Some (t !! new_username))); [exact Hl |].
    match goal with |- context [save_user_data ?d e w1] =>
      pose proof (save_user_data_global d e w1) as Hs;
      destruct (save_user_data d e w1) as [[[|] | x] w2] end;
      simpl in *; congruence.
  - rewrite signup_page_invalid_eq by exact Hv. reflexivity.
Qed.

Lemma signup_page_session new_username new_password confirm_password e w :
  session_state (signup_page new_username new_password confirm_password e w).2
  = session_state w.
Proof.
  destruct (form_valid new_username new_password confirm_password) eqn:Hv.
  - rewrite signup_page_valid_eq by exact Hv.
    rewrite load_user_data_eq. simpl.
    destruct (get_fails e); simpl;
      [| destruct (users_obj w) as [[t | rows |] |]; simpl];
      repeat match goal with
        | |- context [bool_decide ?P] => destruct (bool_decide P)
        | |- context [save_user_data ?d ?e ?w] => rewrite (save_user_data_eq d e w); simpl
        | |- context [put_fails e] => destruct (put_fails e); simpl
        end; reflexivity.
  - rewrite signup_page_invalid_eq by exact Hv. reflexivity.
Qed.

(** *** Claims about the credential store *)

(** C8.  When the username or the password is empty, [validate_login]
    returns False at once: the world it returns is the world it was given,
    so no [get_object] call was recorded and nothing was logged, whatever
    the bucket holds and whether or not it can be reached. *)
Theorem validate_login_empty_is_false username password e w :
  username = "" ∨ password = "" ->
  validate_login username password e w = (Return false, w).
Proof.
  intros H. rewrite validate_login_eq.
  destruct H as [-> | ->]; [reflexivity |].
  destruct (py_not username); reflexivity.
Qed.

(** A completed sign-up wrote the serialised global, not the dict it had
    just extended. *)
Lemma signup_completed_stores_global new_username new_password confirm_password e w w1 :
  signup_page new_username new_password confirm_password e w
    = (Return SignupCompleted, w1) ->
  users_obj w1 = Some (JsonUsers (user_data w)) ∧ put_fails e = false.
Proof.
  intros Hs.
  destruct (form_valid new_username new_password confirm_password) eqn:Hv.
  2:{ rewrite signup_page_invalid_eq in Hs by exact Hv.
      repeat match type of Hs with context [if ?b then _ else _] => destruct b end;
        discriminate. }
  rewrite signup_page_valid_eq in Hs by exact Hv.
  pose proof (load_user_data_global e w) as Hl.
  destruct (load_user_data e w) as [[t | x] w0]; simpl in *; [| discriminate].
  destruct (bool_decide (is_Some (t !! new_username))); [discriminate |].
  rewrite save_user_data_eq in Hs. simpl in Hs.
  destruct (put_fails e); simpl in Hs; [discriminate |].
  injection Hs as <-. simpl. rewrite Hl. split; reflexivity.
Qed.

(** Against a users object holding the empty dict nobody logs in. *)
Lemma validate_login_empty_table username password e w :
  users_obj w = Some (JsonUsers ∅) ->
  (validate_login username password e w).1 = Return false.
Proof.
  intros Hu. rewrite validate_login_eq.
  destruct (py_not username || py_not password); [reflexivity |].
  rewrite load_user_data_eq. simpl. rewrite Hu.
  destruct (get_fails e); simpl; rewrite lookup_empty; reflexivity.
Qed.

(** C6.  The sign-up form checks, in this order, the length of the
    username, the length of the password and the confirmation.  A username
    shorter than 4 or longer than 20 characters (so one of length 3 or 21)
    is answered with the username-length message; with a username of 4 to 20
    characters, a password shorter than 8 is answered with the
    password-length message; with both lengths right, a confirmation that
    differs is answered with the mismatch message.  In all three cases
    nothing else happens.  A username of 4 to 20 characters (so one of
    length 4 or 20) with a password of 8 or more characters, confirmed, gets
    none of the three messages, and is registered when the name is free and
    the save succeeds.  The three messages are distinct. *)
Theorem signup_page_validation new_username new_password confirm_password e w :
  let n := String.length new_username in
  let r := signup_page new_username new_password confirm_password e w in
  ((n < 4 ∨ 20 < n)%nat -> r = (Return UsernameLengthError, w)) ∧
  ((4 <= n <= 20)%nat -> (String.length new_password < 8)%nat ->
     r = (Return PasswordLengthError, w)) ∧
  ((4 <= n <= 20)%nat -> (8 <= String.length new_password)%nat ->
     new_password ≠ confirm_password ->
     r = (Return PasswordMismatchError, w)) ∧
  ((4 <= n <= 20)%nat -> (8 <= String.length new_password)%nat ->
     new_password = confirm_password ->
     (∃ v, r.1 = Return v ∧ v ≠ UsernameLengthError ∧ v ≠ PasswordLengthError
           ∧ v ≠ PasswordMismatchError) ∧
     (∀ t, (load_user_data e w).1 = Return t -> t !! new_username = None ->
           put_fails e = false -> r.1 = Return SignupCompleted)) ∧
  (UsernameLengthError ≠ PasswordLengthError ∧
   UsernameLengthError ≠ PasswordMismatchError ∧
   PasswordLengthError ≠ PasswordMismatchError).
Proof.
  intros n r. subst n r.
  split; [| split; [| split; [| split]]].
  - intros Hn. rewrite signup_page_invalid_eq.
    + destruct (Nat.ltb_spec (String.length new_username) 4);
        destruct (Nat.ltb_spec 20 (String.length new_username)); simpl;
        try reflexivity; lia.
    + destruct (form_valid _ _ _) eqn:Hv; [| reflexivity].
      apply form_valid_iff in Hv. lia.
  - intros Hn Hp. rewrite signup_page_invalid_eq.
    + destruct (Nat.ltb_spec (String.length new_username) 4);
        destruct (Nat.ltb_spec 20 (String.length new_username)); simpl; try lia.
      destruct (Nat.ltb_spec (String.length new_password) 8); [reflexivity | lia].
    + destruct (form_valid _ _ _) eqn:Hv; [| reflexivity].
      apply form_valid_iff in Hv. lia.
  - intros Hn Hp Hc. rewrite signup_page_invalid_eq.
    + destruct (Nat.ltb_spec (String.length new_username) 4);
        destruct (Nat.ltb_spec 20 (String.length new_username)); simpl; try lia.
      destruct (Nat.ltb_spec (String.length new_password) 8); [lia | reflexivity].
    + destruct (form_valid _ _ _) eqn:Hv; [| reflexivity].
      apply form_valid_iff in Hv. tauto.
  - intros Hn Hp Hc.
    assert (Hv : form_valid new_username new_password confirm_password = true)
      by (apply form_valid_iff; tauto).
    rewrite signup_page_valid_eq by exact Hv.
    rewrite load_user_data_eq. simpl. split.
    + destruct (get_fails e); simpl;
        [| destruct (users_obj w) as [[t | rows |] |]; simpl];
        repeat match goal with
          | |- context [bool_decide ?P] => destruct (bool_decide P)
          | |- context [save_user_data ?d ?e ?w] =>
              rewrite (save_user_data_eq d e w); simpl
          | |- context [put_fails e] => destruct (put_fails e); simpl
          end; eexists; (split; [reflexivity |]); repeat split; discriminate.
    + intros t Ht Hfree Hput.
      destruct (get_fails e); simpl in *;
        [| destruct (users_obj w) as [[t0 | rows |] |]; simpl in *];
        injection Ht as <-;
        (rewrite bool_decide_eq_false_2
           by (rewrite Hfree; apply is_Some_None));
        rewrite save_user_data_eq; simpl; rewrite Hput; reflexivity.
  - repeat split; discriminate.
Qed.

(** C7.  When the users object loads and already has the submitted name as
    a key (keys are compared as they are, character by character), the
    sign-up never completes, the users object is left as it was and no
    [put_object] call is made; and when the form passes its three checks the
    answer is the name-taken message, after the one [get_object] call of
    the load. *)
Theorem signup_page_username_taken new_username new_password confirm_password e w t :
  get_fails e = false ->
  users_obj w = Some (JsonUsers t) ->
  is_Some (t !! new_username) ->
  ∃ v w',
    signup_page new_username new_password confirm_password e w = (Return v, w') ∧
    v ≠ SignupCompleted ∧
    users_obj w' = users_obj w ∧
    (∀ key body, PutObject key body ∈ s3_calls w' -> PutObject key body ∈ s3_calls w) ∧
    ((4 <= String.length new_username <= 20)%nat ->
     (8 <= String.length new_password)%nat ->
     new_password = confirm_password ->
     v = UsernameTakenError ∧ w' = with_call (GetObject USER_DATA_KEY) w).
Proof.
  intros Hget Hobj Hin.
  destruct (form_valid new_username new_password confirm_password) eqn:Hv.
  - rewrite signup_page_valid_eq by exact Hv.
    rewrite load_user_data_eq. simpl. rewrite Hget, Hobj. simpl.
    rewrite bool_decide_eq_true_2 by exact Hin.
    eexists _, _. split; [reflexivity |].
    split; [discriminate |]. split; [exact Hobj |]. split.
    + simpl. intros key body Hel. apply elem_of_app in Hel as [Hel | Hel]; [exact Hel |].
      apply list_elem_of_singleton in Hel. discriminate.
    + intros _ _ _. split; reflexivity.
  - rewrite signup_page_invalid_eq by exact Hv.
    eexists _, _. split; [reflexivity |].
    split.
    { repeat match goal with |- context [if ?b then _ else _] => destruct b end;
        discriminate. }
    split; [reflexivity |]. split; [tauto |].
    intros Hn Hp Hc.
    assert (form_valid new_username new_password confirm_password = true)
      by (apply form_valid_iff; tauto).
    congruence.
Qed.

End CredentialFacts.

(** C9.  [load_user_data] never raises: it always returns a dict; when the
    retrieval (the [get_object] call followed by [json.loads]) raises, the
    dict is the empty one and the failure is logged as one error record;
    otherwise it is the dict retrieved and nothing is logged. *)
Theorem load_user_data_fails_soft e w :
  ∃ t w',
    load_user_data e w = (Return t, w') ∧
    match (let* user_obj := get_object USER_DATA_KEY in json_loads user_obj) e w with
    | (Return t0, w1) => t = t0 ∧ w' = w1
    | (Raise x, w1) => t = ∅ ∧ w' = with_log (LoadUsersFailed x) w1
    end.
Proof.
  unfold load_user_data, try_except.
  destruct ((let* user_obj := get_object USER_DATA_KEY in json_loads user_obj) e w)
    as [[t0 | x] w1].
  - exists t0, w1. split; [reflexivity | split; reflexivity].
  - eexists ∅, _. split; [reflexivity | split; reflexivity].
Qed.

(** The retrieval raises exactly when the request fails, the object is
    missing, or its body is not a users document. *)
Lemma retrieval_raises_iff e w :
  (∃ x w1, (let* user_obj := get_object USER_DATA_KEY in json_loads user_obj) e w
           = (Raise x, w1))
  <-> get_fails e = true ∨ ¬ ∃ t, users_obj w = Some (JsonUsers t).
Proof.
  unfold get_object, bind, modify, ask, get_world. simpl.
  destruct (get_fails e); simpl.
  { split; [auto | eauto]. }
  destruct (users_obj w) as [[t | rows |] |]; simpl.
  - split.
    + intros (x & w1 & Hx). discriminate.
    + intros [Hf | Hn]; [discriminate | exfalso; apply Hn; eauto].
  - split; [| eauto]. intros _. right. intros [t Ht]. discriminate.
  - split; [| eauto]. intros _. right. intros [t Ht]. discriminate.
  - split; [| eauto]. intros _. right. intros [t Ht]. discriminate.
Qed.

(** ** The price query *)



Lemma match_here_lits term s :
  match_here (lits term) s = true <-> ∃ post, lower_str s = lower_str term +:+ post.
Proof.
  revert s. induction term as [| c rest IH]; intros s; simpl.
  - split; [intros _; exists (lower_str s); reflexivity | reflexivity].
  - destruct s as [| d s']; simpl.
    + split; [discriminate | intros [post H]; discriminate].
    + rewrite andb_true_iff, bool_decide_eq_true, IH. split.
      * intros [Hc [post Hp]]. exists post. rewrite Hc, Hp. reflexivity.
      * intros [post Hp]. injection Hp as Hc Hp. split; [congruence | eauto].
Qed.

Lemma re_search_lits term s :
  re_search (lits term) s = true <-> contains_ci term s.
Proof.
  unfold contains_ci. induction s as [| d s' IH]; simpl.
  - rewrite orb_false_r, match_here_lits. simpl. split.
    + intros [post Hp]. exists EmptyString, post. exact Hp.
    + intros (pre & post & Hp). destruct pre as [| p pre]; [| discriminate].
      exists post. exact Hp.
  - rewrite orb_true_iff, IH, match_here_lits. simpl. split.
    + intros [[post Hp] | (pre & post & Hp)].
      * exists EmptyString, post. exact Hp.
      * exists (String (lower d) pre), post. simpl. rewrite Hp. reflexivity.
    + intros (pre & post & Hp). destruct pre as [| p pre]; simpl in Hp.
      * left. exists post. exact Hp.
      * right. injection Hp as _ Hp. exists pre, post. exact Hp.
Qed.



(** *** Orders of the sort *)

#[global] Instance name_le_dec a b : Decision (name_le a b).
Proof. destruct a, b; simpl; apply _. Defined.

#[global] Instance sort_le_dec k a b : Decision (sort_le k a b).
Proof. destruct k; simpl; apply _. Defined.

#[global] Instance sort_le_price_asc_trans : Transitive (sort_le PRICE_ASC).
Proof. intros a b c. simpl. lia. Qed.

#[global] Instance sort_le_price_asc_total : Total (sort_le PRICE_ASC).
Proof. intros a b. simpl. lia. Qed.

#[global] Instance sort_le_price_desc_trans : Transitive (sort_le PRICE_DESC).
Proof. intros a b c. simpl. lia. Qed.

#[global] Instance sort_le_price_desc_total : Total (sort_le PRICE_DESC).
Proof. intros a b. simpl. lia. Qed.

Lemma string_compare_trans s1 s2 s3 :
  String.compare s1 s2 ≠ Gt -> String.compare s2 s3 ≠ Gt -> String.compare s1 s3 ≠ Gt.
Proof.
  revert s2 s3. induction s1 as [| c1 s1 IH]; intros [| c2 s2] [| c3 s3]; simpl;
    try congruence.
  unfold Ascii.compare.
  destruct (N.compare_spec (N_of_ascii c1) (N_of_ascii c2)) as [H12 | H12 | H12];
    destruct (N.compare_spec (N_of_ascii c2) (N_of_ascii c3)) as [H23 | H23 | H23];
    destruct (N.compare_spec (N_of_ascii c1) (N_of_ascii c3)) as [H13 | H13 | H13];
    try congruence; try lia.
  apply IH.
Qed.

Lemma string_leb_trans s1 s2 s3 :
  String.leb s1 s2 = true -> String.leb s2 s3 = true -> String.leb s1 s3 = true.
Proof.
  unfold String.leb. intros H12 H23.
  pose proof (string_compare_trans s1 s2 s3) as Ht.
  destruct (String.compare s1 s2); destruct (String.compare s2 s3);
    destruct (String.compare s1 s3); try reflexivity; try discriminate;
    exfalso; apply Ht; congruence.
Qed.

#[global] Instance sort_le_name_trans : Transitive (sort_le NAME_ASC).
Proof.
  intros a b c. simpl.
  destruct (product_name a), (product_name b), (product_name c); simpl;
    try tauto. apply string_leb_trans.
Qed.

#[global] Instance sort_le_name_total : Total (sort_le NAME_ASC).
Proof.
  intros a b. simpl.
  destruct (product_name a), (product_name b); simpl; try tauto.
  apply String.leb_total.
Qed.

(** The call has a result for every frame and every order. *)
Lemma sort_values_exists k df : ∃ sorted, sort_values k df sorted.
Proof.
  exists (merge_sort (sort_le k) df).
  destruct k; split;
    first [apply merge_sort_Permutation | apply StronglySorted_merge_sort; apply _].
Qed.


(** *** Runs of a search *)

Lemma search_frame_empty q w1 o w' :
  search_frame q [] w1 o w' -> o = Return DataUnavailableError ∧ w' = w1.
Proof. intros H. inversion H; subst; try discriminate. split; reflexivity. Qed.



(** Every search that returns went through the handler of the load, on the
    empty frame. *)
Lemma search_price_inv q e w v w' :
  search_price q e w v w' ->
  v = DataUnavailableError ∧
  ∃ x, w' = with_log (LoadPricesFailed x) (with_call (GetObject PRICE_DB_KEY) w).
Proof.
  intros (price_df & w1 & Hl & Hf). rewrite load_price_data_eq in Hl.
  injection Hl as <- <-. apply search_frame_empty in Hf as [Hv ->].
  injection Hv as <-. split; [reflexivity | eauto].
Qed.

(** The frame a search works on is the one the load returned, so the page
    never raises: the pattern is not compiled and nothing is displayed. *)
Lemma search_never_raises q e w price_df w1 x w' :
  load_price_data e w = (Return price_df, w1) ->
  ¬ search_frame q price_df w1 (Raise x) w'.
Proof.
  intros Hl Hf. rewrite load_price_data_eq in Hl. injection Hl as <- <-.
  apply search_frame_empty in Hf as [Hx _]. discriminate.
Qed.

(** What lines 179-207 do with a frame that has rows, for a term of the
    embedded fragment that no row passes: the page returns the no-results
    warning, and nothing else. *)
Lemma search_frame_no_match q price_df w1 :
  df_empty price_df = false ->
  filtered_df q price_df = Some [] ->
  search_frame q price_df w1 (Return NoResultsWarning)
    (with_log (SearchEmpty (search_term q)) w1) ∧
  ∀ o w', search_frame q price_df w1 o w' -> o = Return NoResultsWarning.
Proof.
  intros Hne Hf.
  assert (Hk : ∀ filtered, kept_rows q price_df filtered -> filtered = []).
  { intros filtered [f Hf' | found Hnone].
    - rewrite Hf in Hf'. injection Hf' as <-. reflexivity.
    - unfold filtered_df in Hf. rewrite Hnone in Hf. discriminate. }
  split.
  - apply (frame_no_results q price_df w1 []); [exact Hne | | ].
    + apply kept_modelled. exact Hf.
    + split; [reflexivity | constructor].
  - intros o w' H.
    inversion H as [He | _ Hnone | f _ Hkf _ | f sorted _ Hkf Hs Hse | f sorted _ Hkf Hs Hse];
      subst.
    + congruence.
    + unfold filtered_df in Hf. rewrite Hnone in Hf. discriminate.
    + reflexivity.
    + apply Hk in Hkf. subst f. destruct Hs as [Hp _].
      apply Permutation_nil_r in Hp. subst sorted. discriminate.
    + apply Hk in Hkf. subst f. destruct Hs as [Hp _].
      apply Permutation_nil_r in Hp. subst sorted. discriminate.
Qed.

Lemma search_price_global q e w v w' :
  search_price q e w v w' -> user_data w' = user_data w.
Proof. intros H. apply search_price_inv in H as (_ & x & ->). reflexivity. Qed.

Lemma search_price_session q e w v w' :
  search_price q e w v w' -> session_state w' = session_state w.
Proof. intros H. apply search_price_inv in H as (_ & x & ->). reflexivity. Qed.

(** Every search ends in a view, whatever the term. *)
Lemma search_price_total q e w :
  ∃ x, search_price q e w DataUnavailableError
         (with_log (LoadPricesFailed x) (with_call (GetObject PRICE_DB_KEY) w)).
Proof.
  eexists. eexists _, _. split; [apply load_price_data_eq |].
  apply frame_unavailable. reflexivity.
Qed.

(** *** The sample data under the filter *)

Example example_filter :
  filtered_df example_query example_table = Some [widget_a; widget_b].
Proof. reflexivity. Qed.

Example ties_filter : filtered_df ties_query ties_table = Some ties_table.
Proof. reflexivity. Qed.

(** *** Claims about the price query *)

(** With the term [.] every row with a name of one character or more is
    kept, although no name contains a full stop: the term is read as a
    regular expression. *)
Example dot_term_is_a_pattern :
  filtered_df {| search_term := "."; min_price := 0; max_price := 1000000;
                 sort_key := PRICE_ASC |} example_table = Some example_table
  ∧ ¬ contains_ci "." "gadget".
Proof.
  split; [reflexivity |].
  intros H. apply (re_search_lits "." "gadget") in H. vm_compute in H. discriminate.
Qed.



(** C5 (what the code does instead).  Whatever the bucket holds and
    whatever the query, a search ends in the data-unavailable message and
    can end in nothing else: the load always goes through its handler (see
    [load_price_data_eq]), so the page is handed the empty frame.  A stored
    table none of whose rows matches the query is therefore answered with
    the message of a failed load, never with the no-results warning, and
    the two messages differ. *)
Theorem search_always_reports_unavailable q e w :
  (∃ x, search_price q e w DataUnavailableError
          (with_log (LoadPricesFailed x) (with_call (GetObject PRICE_DB_KEY) w))) ∧
  (∀ v w', search_price q e w v w' -> v = DataUnavailableError) ∧
  (∀ w', ¬ search_price q e w NoResultsWarning w') ∧
  DataUnavailableError ≠ NoResultsWarning.
Proof.
  split; [apply search_price_total |]. split; [| split; [| discriminate]].
  - intros v w' H. apply search_price_inv in H as [Hv _]. exact Hv.
  - intros w' H. apply search_price_inv in H as [Hv _]. discriminate.
Qed.

(** C3 (what the code does instead).  Whatever the bucket holds, whatever
    the query and the sort order chosen, no search displays a row: the page
    never reaches the filter or the sort, and logs neither a result count
    nor an empty result.  Two stored rows of equal price that match the
    query do not appear in the output at all. *)
Theorem search_never_displays_rows q e w v w' :
  search_price q e w v w' ->
  (∀ rows, v ≠ SearchResults rows) ∧
  (∀ n, SearchDone (search_term q) n ∈ log w' ->
        SearchDone (search_term q) n ∈ log w) ∧
  (SearchEmpty (search_term q) ∈ log w' -> SearchEmpty (search_term q) ∈ log w).
Proof.
  intros H. apply search_price_inv in H as (-> & x & ->). simpl.
  split; [discriminate |]. split.
  - intros n Hel. apply elem_of_app in Hel as [Hel | Hel]; [exact Hel |].
    apply list_elem_of_singleton in Hel. discriminate.
  - intros Hel. apply elem_of_app in Hel as [Hel | Hel]; [exact Hel |].
    apply list_elem_of_singleton in Hel. discriminate.
Qed.

(** The direction of each order, on two rows. *)
Example sort_values_price_asc_example out :
  sort_values PRICE_ASC [widget_a; widget_b] out -> out = [widget_b; widget_a].
Proof.
  intros [Hp Hs]. symmetry in Hp. apply Permutation.Permutation_length_2_inv in Hp.
  destruct Hp as [-> | ->]; [| reflexivity].
  apply StronglySorted_cons in Hs as [Hall _]. rewrite Forall_forall in Hall.
  specialize (Hall widget_b ltac:(set_solver)). simpl in Hall. lia.
Qed.

Example sort_values_price_desc_example out :
  sort_values PRICE_DESC [widget_b; widget_a] out -> out = [widget_a; widget_b].
Proof.
  intros [Hp Hs]. symmetry in Hp. apply Permutation.Permutation_length_2_inv in Hp.
  destruct Hp as [-> | ->]; [| reflexivity].
  apply StronglySorted_cons in Hs as [Hall _]. rewrite Forall_forall in Hall.
  specialize (Hall widget_a ltac:(set_solver)). simpl in Hall. lia.
Qed.

Example sort_values_name_example out :
  sort_values NAME_ASC [widget_b; widget_a] out -> out = [widget_a; widget_b].
Proof.
  intros [Hp Hs]. symmetry in Hp. apply Permutation.Permutation_length_2_inv in Hp.
  destruct Hp as [-> | ->]; [| reflexivity].
  apply StronglySorted_cons in Hs as [Hall _]. rewrite Forall_forall in Hall.
  specialize (Hall widget_a ltac:(set_solver)). vm_compute in Hall. discriminate.
Qed.

(** ** The script and the session *)

Lemma init_session_logged_in e w :
  is_logged_in (init_session e w).2 = is_logged_in w.
Proof.
  unfold init_session, bind, modify, is_logged_in. simpl.
  destruct (ss_logged_in (session_state w)) as [[|] |] eqn:Hl; simpl;
    destruct (ss_username (session_state w)); simpl; rewrite ?Hl; reflexivity.
Qed.

Lemma init_session_flag_set e w :
  ∃ b, ss_logged_in (session_state (init_session e w).2) = Some b.
Proof.
  unfold init_session, bind, modify. simpl.
  destruct (ss_logged_in (session_state w)) as [b |] eqn:Hl; simpl;
    destruct (ss_username (session_state w)); simpl; rewrite ?Hl; eauto.
Qed.

Lemma session_of_eq w w' :
  session_state w' = session_state w -> session_of w' = session_of w.
Proof. unfold session_of, is_logged_in. intros ->. reflexivity. Qed.

Lemma session_of_init e w : session_of (init_session e w).2 = session_of w.
Proof. unfold session_of. rewrite init_session_logged_in. reflexivity. Qed.

Lemma logout_eq e w :
  logout e w =
    (Return tt,
     with_log LoggedOut
       (with_session {| ss_logged_in := Some false; ss_username := Some None |} w)).
Proof. reflexivity. Qed.

Section ScriptFacts.

Variable sha256_hexdigest : string -> string.

Abbreviation validate_login := (validate_login sha256_hexdigest).
Abbreviation signup_page := (signup_page sha256_hexdigest).
Abbreviation login_page := (login_page sha256_hexdigest).

Lemma main_global a e w v w' :
  main sha256_hexdigest a e w v w' -> user_data w' = user_data w.
Proof.
  unfold main. rewrite <- (init_session_global e w).
  set (w0 := (init_session e w).2).
  destruct (is_logged_in w0); destruct a as [| u p | u p c | | q]; simpl;
    try (intros [-> _]; reflexivity).
  - rewrite logout_eq. intros [Hw _]. injection Hw as ->. reflexivity.
  - intros (sv & Hs & _). eapply search_price_global; exact Hs.
  - intros (lv & Hl & _). rewrite <- (login_page_global sha256_hexdigest u p e w0).
    rewrite Hl. reflexivity.
  - intros (sv & Hs & _). rewrite <- (signup_page_global sha256_hexdigest u p c e w0).
    rewrite Hs. reflexivity.
Qed.

(** No run of the script, and no other writer of the bucket, assigns the
    module-level global: it stays the empty dict of line 35. *)
Lemma reachable_user_data w : reachable sha256_hexdigest w -> user_data w = ∅.
Proof.
  induction 1 as [users prices | w a e v w' _ IH Hrun | w key b _ IH].
  - reflexivity.
  - rewrite (main_global _ _ _ _ _ Hrun). exact IH.
  - exact IH.
Qed.

(** Every action but a search has exactly the run its page computes. *)
Lemma main_progress a e w :
  (∀ q, a ≠ SearchClick q) -> ∃ v w', main sha256_hexdigest a e w v w'.
Proof.
  intros Hns. unfold main. set (w0 := (init_session e w).2).
  destruct (is_logged_in w0); destruct a as [| u p | u p c | | q]; simpl;
    try (eexists _, _; split; reflexivity);
    try (exfalso; eapply Hns; reflexivity).
  - rewrite login_page_eq. simpl.
    destruct (validate_login_returns sha256_hexdigest u p e w0) as [[|] Hb];
      rewrite Hb; eexists _, _, _; split; reflexivity.
  - destruct (form_valid u p c) eqn:Hv.
    + rewrite signup_page_valid_eq by exact Hv.
      rewrite load_user_data_eq. simpl.
      destruct (get_fails e); simpl;
        [| destruct (users_obj w0) as [[t | rows |] |]; simpl];
        repeat match goal with
          | |- context [bool_decide ?P] => destruct (bool_decide P)
          | |- context [save_user_data ?d ?e ?w] =>
              rewrite (save_user_data_eq d e w); simpl
          | |- context [put_fails e] => destruct (put_fails e); simpl
          end; eexists _, _, _; split; reflexivity.
    + rewrite signup_page_invalid_eq by exact Hv.
      eexists _, _, _; split; reflexivity.
Qed.

(** C10.  A session is in one of two states, anonymous or authenticated,
    and a world in which the script starts is anonymous.  In a run of the
    script: the session goes from anonymous to authenticated only in a run
    that submits the login form with credentials [validate_login] accepts,
    and such a run does authenticate; it goes from authenticated to
    anonymous only in a run that clicks logout, and a logout always ends
    anonymous; a login that is not accepted, a sign-up, a search and a run
    without action leave the session state as it was.  After any run the
    flag [logged_in] is set. *)
Theorem session_transitions a e w v w' :
  main sha256_hexdigest a e w v w' ->
  let w0 := (init_session e w).2 in
  (∀ s : session, s = ANONYMOUS ∨ s = AUTHENTICATED) ∧
  (∀ users prices, session_of (start_world users prices) = ANONYMOUS) ∧
  (∃ b, ss_logged_in (session_state w') = Some b) ∧
  (session_of w = ANONYMOUS -> session_of w' = AUTHENTICATED ->
     ∃ username password,
       a = LoginSubmit username password ∧
       (validate_login username password e w0).1 = Return true) ∧
  (∀ username password,
     a = LoginSubmit username password -> session_of w = ANONYMOUS ->
     (validate_login username password e w0).1 = Return true ->
     session_of w' = AUTHENTICATED) ∧
  (session_of w = AUTHENTICATED -> session_of w' = ANONYMOUS -> a = LogoutClick) ∧
  (a = LogoutClick -> session_of w' = ANONYMOUS) ∧
  (∀ username password,
     a = LoginSubmit username password ->
     (validate_login username password e w0).1 ≠ Return true ->
     session_of w' = session_of w) ∧
  ((∀ username password, a ≠ LoginSubmit username password) ->
   a ≠ LogoutClick -> session_of w' = session_of w).
Proof.
  intros Hrun w0.
  split; [intros []; auto |]. split; [reflexivity |].
  pose proof (session_of_init e w) as Hinit.
  pose proof (init_session_flag_set e w) as Hflag.
  unfold main in Hrun.
  change (init_session e w).2 with w0 in Hinit, Hflag, Hrun.
  rewrite <- Hinit. clearbody w0. clear Hinit.
  assert (Hs0 : session_of w0 = if is_logged_in w0 then AUTHENTICATED else ANONYMOUS)
    by reflexivity.
  destruct (is_logged_in w0) eqn:Hlog; destruct a as [| u p | u p c | | q].
  all: try (destruct Hrun as [-> _]; rewrite Hs0;
            repeat split; try congruence; try exact Hflag; fail).
  - (* logged in, logout *)
    rewrite logout_eq in Hrun. destruct Hrun as [Hw _]. injection Hw as ->.
    rewrite Hs0.
    repeat split; try congruence; try reflexivity; eauto.
  - (* logged in, search *)
    destruct Hrun as (sv & Hs & _).
    pose proof (search_price_session _ _ _ _ _ Hs) as Hss.
    rewrite (session_of_eq _ _ Hss), Hss.
    repeat split; try congruence; try exact Hflag.
  - (* anonymous, login *)
    destruct Hrun as (lv & Hl & _). rewrite login_page_eq in Hl.
    pose proof (validate_login_session sha256_hexdigest u p e w0) as Hvs.
    destruct (validate_login u p e w0) as [[[|] | x] w1] eqn:Hval;
      cbn [fst snd] in *; [| | discriminate]; injection Hl as <- <-.
    + rewrite Hs0.
      repeat split; try congruence; try reflexivity; eauto.
      * intros _ _. exists u, p. rewrite Hval. split; reflexivity.
      * intros u' p' Heq Hne. injection Heq as <- <-. rewrite Hval in Hne.
        exfalso. apply Hne. reflexivity.
    + assert (Hk : session_of (with_log (LoginRejected u) w1) = session_of w0).
      { apply session_of_eq. exact Hvs. }
      rewrite Hk. cbn [session_state with_log]. rewrite Hvs.
      repeat split; try congruence; try exact Hflag.
      intros u' p' Heq _ Ht. injection Heq as <- <-. rewrite Hval in Ht. discriminate.
  - (* anonymous, sign-up *)
    destruct Hrun as (sv & Hs & _).
    pose proof (signup_page_session sha256_hexdigest u p c e w0) as Hss.
    rewrite Hs in Hss. cbn [snd] in Hss.
    rewrite (session_of_eq _ _ Hss), Hss.
    repeat split; try congruence; try exact Hflag.
Qed.

(** C2.  [save_user_data] gives the same result whatever dict it is passed.
    In every world the script reaches, a save whose [put_object] goes
    through returns True and leaves in the bucket the serialisation of the
    empty dict: the call it made is [put_object] with that body. *)
Theorem save_user_data_persists_global w user_Dict e :
  reachable sha256_hexdigest w ->
  put_fails e = false ->
  (∀ other, save_user_data other e w = save_user_data user_Dict e w) ∧
  (save_user_data user_Dict e w).1 = Return true ∧
  users_obj (save_user_data user_Dict e w).2 = Some (json_dumps ∅) ∧
  s3_calls (save_user_data user_Dict e w).2
    = (s3_calls w ++ [PutObject USER_DATA_KEY (json_dumps ∅)])%list.
Proof.
  intros Hr Hput. apply reachable_user_data in Hr.
  split; [intros other; rewrite !save_user_data_eq; reflexivity |].
  rewrite save_user_data_eq. simpl. rewrite Hput, Hr. simpl.
  repeat split; reflexivity.
Qed.

(** C1 (what the code does instead).  In every world the script reaches, a
    sign-up that ends with the completion message has left in the bucket
    the serialisation of the empty dict, and a later [validate_login] with
    the name just registered returns False for every password, the
    registered one included. *)
Theorem signup_then_login_is_rejected w new_username new_password confirm_password e1 w1 :
  reachable sha256_hexdigest w ->
  signup_page new_username new_password confirm_password e1 w
    = (Return SignupCompleted, w1) ->
  users_obj w1 = Some (JsonUsers ∅) ∧
  ∀ password e2,
    (validate_login new_username password e2 w1).1 = Return false.
Proof.
  intros Hr Hs. apply reachable_user_data in Hr.
  apply signup_completed_stores_global in Hs as [Hobj _]. rewrite Hr in Hobj.
  split; [exact Hobj |].
  intros password e2. apply validate_login_empty_table. exact Hobj.
Qed.

End ScriptFacts.

(** ** Instances of the theorems *)

Lemma validate_login_empty_is_false_witness :
  validate_login toy_digest "" "x" env_ok users_world = (Return false, users_world).
Proof. apply validate_login_empty_is_false. left. reflexivity. Defined.

Lemma signup_page_validation_witness :
  signup_page toy_digest "abc" "password1" "password1" env_ok users_world
    = (Return UsernameLengthError, users_world)
  ∧ signup_page toy_digest "abcdefghijklmnopqrstu" "password1" "password1" env_ok users_world
    = (Return UsernameLengthError, users_world)
  ∧ signup_page toy_digest "robert" "short" "short" env_ok users_world
    = (Return PasswordLengthError, users_world)
  ∧ signup_page toy_digest "robert" "password1" "password2" env_ok users_world
    = (Return PasswordMismatchError, users_world)
  ∧ (signup_page toy_digest "abcd" "password1" "password1" env_ok users_world).1
    = Return SignupCompleted
  ∧ (signup_page toy_digest "abcdefghijklmnopqrst" "password1" "password1" env_ok
       users_world).1
    = Return SignupCompleted.
Proof.
  split; [| split; [| split; [| split; [| split]]]].
  - destruct (signup_page_validation toy_digest "abc" "password1" "password1"
                env_ok users_world) as (H & _).
    apply H. simpl. lia.
  - destruct (signup_page_validation toy_digest "abcdefghijklmnopqrstu" "password1"
                "password1" env_ok users_world) as (H & _).
    apply H. simpl. lia.
  - destruct (signup_page_validation toy_digest "robert" "short" "short"
                env_ok users_world) as (_ & H & _).
    apply H; simpl; lia.
  - destruct (signup_page_validation toy_digest "robert" "password1" "password2"
                env_ok users_world) as (_ & _ & H & _).
    apply H; simpl; [lia | lia | discriminate].
  - destruct (signup_page_validation toy_digest "abcd" "password1" "password1"
                env_ok users_world) as (_ & _ & _ & H & _).
    destruct H as [_ H]; [simpl; lia | simpl; lia | reflexivity |].
    apply (H {[ "alice" := alice_record ]}); reflexivity.
  - destruct (signup_page_validation toy_digest "abcdefghijklmnopqrst" "password1"
                "password1" env_ok users_world) as (_ & _ & _ & H & _).
    destruct H as [_ H]; [simpl; lia | simpl; lia | reflexivity |].
    apply (H {[ "alice" := alice_record ]}); reflexivity.
Defined.

Lemma signup_page_username_taken_witness :
  ∃ v w',
    signup_page toy_digest "alice" "another-pw" "another-pw" env_ok users_world
      = (Return v, w') ∧
    v ≠ SignupCompleted ∧
    users_obj w' = users_obj users_world ∧
    (∀ key body, PutObject key body ∈ s3_calls w' ->
                 PutObject key body ∈ s3_calls users_world) ∧
    ((4 <= String.length "alice" <= 20)%nat ->
     (8 <= String.length "another-pw")%nat ->
     "another-pw" = "another-pw" ->
     v = UsernameTakenError ∧ w' = with_call (GetObject USER_DATA_KEY) users_world).
Proof.
  apply (signup_page_username_taken toy_digest "alice" "another-pw" "another-pw"
           env_ok users_world {[ "alice" := alice_record ]}).
  - reflexivity.
  - reflexivity.
  - exists alice_record. reflexivity.
Defined.

Lemma signup_then_login_is_rejected_witness :
  (validate_login toy_digest "robert" "correct-pw" env_ok
     (signup_page toy_digest "robert" "correct-pw" "correct-pw" env_ok users_world).2).1
  = Return false.
Proof.
  apply (signup_then_login_is_rejected toy_digest users_world
           "robert" "correct-pw" "correct-pw" env_ok).
  - apply reach_start.
  - reflexivity.
Defined.

Lemma save_user_data_persists_global_witness :
  (save_user_data {[ "alice" := alice_record ]} env_ok users_world).1 = Return true
  ∧ users_obj (save_user_data {[ "alice" := alice_record ]} env_ok users_world).2
    = Some (json_dumps ∅).
Proof.
  destruct (save_user_data_persists_global toy_digest users_world
              {[ "alice" := alice_record ]} env_ok) as (_ & H1 & H2 & _).
  - apply reach_start.
  - reflexivity.
  - split; [exact H1 | exact H2].
Defined.


Lemma search_always_reports_unavailable_witness :
  example_table ≠ [] ∧
  filtered_df unmatched_query example_table = Some [] ∧
  (∃ x, search_price unmatched_query env_ok (prices_world example_table)
          DataUnavailableError
          (with_log (LoadPricesFailed x)
             (with_call (GetObject PRICE_DB_KEY) (prices_world example_table)))) ∧
  (∀ w', ¬ search_price unmatched_query env_ok (prices_world example_table)
             NoResultsWarning w').
Proof.
  destruct (search_always_reports_unavailable unmatched_query env_ok
              (prices_world example_table)) as (H1 & _ & H2 & _).
  split; [discriminate |]. split; [reflexivity |]. split; [exact H1 | exact H2].
Defined.

Example tied_search_run :
  search_price tied_query env_ok (prices_world tied_table) DataUnavailableError
    (with_log (LoadPricesFailed NotAConnection)
       (with_call (GetObject PRICE_DB_KEY) (prices_world tied_table))).
Proof.
  exists [], (with_log (LoadPricesFailed NotAConnection)
               (with_call (GetObject PRICE_DB_KEY) (prices_world tied_table))).
  split; [reflexivity |]. apply frame_unavailable. reflexivity.
Qed.

Lemma search_never_displays_rows_witness :
  filtered_df tied_query tied_table = Some tied_table ∧
  (∀ rows, DataUnavailableError ≠ SearchResults rows).
Proof.
  destruct (search_never_displays_rows _ _ _ _ _ tied_search_run) as (H & _).
  split; [reflexivity | exact H].
Defined.

Example alice_logs_in :
  main toy_digest (LoginSubmit "alice" "correct-pw") env_ok users_world
    (LoginView LoginSucceeded)
    (login_page toy_digest "alice" "correct-pw" env_ok
       (init_session env_ok users_world).2).2.
Proof. exists LoginSucceeded. split; reflexivity. Qed.

Lemma session_transitions_witness :
  session_of users_world = ANONYMOUS
  ∧ session_of (login_page toy_digest "alice" "correct-pw" env_ok
                  (init_session env_ok users_world).2).2 = AUTHENTICATED.
Proof.
  split; [reflexivity |].
  destruct (session_transitions toy_digest _ _ _ _ _ alice_logs_in)
    as (_ & _ & _ & _ & H & _).
  apply (H "alice" "correct-pw"); reflexivity.
Defined.

(** * Further properties of the code *)

(** ** Storage *)

(** X1.  [load_price_data] never raises and never returns data: whatever
    the bucket holds, it makes one [get_object] call, returns the empty
    frame, logs one error record and leaves the bucket as it is.  Even when
    the request goes through and the price object is there, the record is
    the refusal of [read_sql_table], which line 60 hands the response body
    in place of a database connection. *)
Theorem load_price_data_always_empty e w :
  ∃ x,
    load_price_data e w
      = (Return [],
         with_log (LoadPricesFailed x) (with_call (GetObject PRICE_DB_KEY) w)) ∧
    (get_fails e = false -> is_Some (prices_obj w) -> x = NotAConnection).
Proof.
  rewrite load_price_data_eq. eexists. split; [reflexivity |].
  intros -> [b ->]. reflexivity.
Qed.

(** X2.  [save_user_data] never raises: it returns True exactly when
    [put_object] went through.  When the call fails it returns False, logs
    one error record and leaves both objects of the bucket as they were. *)
Theorem save_user_data_reports_failure user_Dict e w :
  (save_user_data user_Dict e w).1 = Return (negb (put_fails e)) ∧
  (put_fails e = true ->
     users_obj (save_user_data user_Dict e w).2 = users_obj w ∧
     prices_obj (save_user_data user_Dict e w).2 = prices_obj w ∧
     log (save_user_data user_Dict e w).2
       = (log w ++ [SaveUsersFailed (ClientError USER_DATA_KEY)])%list).
Proof.
  rewrite save_user_data_eq. simpl.
  destruct (put_fails e); simpl; split; try reflexivity; try discriminate.
  intros _. repeat split; reflexivity.
Qed.

Section FurtherCredentialFacts.

Variable sha256_hexdigest : string -> string.

Abbreviation validate_login := (validate_login sha256_hexdigest).
Abbreviation signup_page := (signup_page sha256_hexdigest).
Abbreviation login_page := (login_page sha256_hexdigest).

(** X3.  With a non-empty username and password and a users object that is
    retrieved, [validate_login] makes one [get_object] call, changes nothing
    else, and returns True exactly when the dict has the username as a key
    and the digest stored under it is the digest of the password given.  If
    the stored digest is the digest of some password and the digest function
    sends different passwords to different digests, it returns True exactly
    for that password. *)
Theorem validate_login_checks_digest username password e w t :
  username ≠ "" -> password ≠ "" ->
  get_fails e = false -> users_obj w = Some (JsonUsers t) ->
  ∃ b,
    validate_login username password e w
      = (Return b, with_call (GetObject USER_DATA_KEY) w) ∧
    (b = true <->
       ∃ r, t !! username = Some r ∧ stored_password r = sha256_hexdigest password) ∧
    (∀ r registered,
       t !! username = Some r ->
       stored_password r = sha256_hexdigest registered ->
       (∀ p1 p2, sha256_hexdigest p1 = sha256_hexdigest p2 -> p1 = p2) ->
       (b = true <-> password = registered)).
Proof.
  intros Hu Hp Hg Ho. rewrite validate_login_eq.
  destruct username as [| c1 u1]; [congruence |].
  destruct password as [| c2 p2]; [congruence |].
  simpl. rewrite load_user_data_eq. simpl. rewrite Hg, Ho. simpl.
  eexists. split; [reflexivity |].
  destruct (t !! String c1 u1) as [r |] eqn:Hr.
  - split.
    + rewrite bool_decide_eq_true. split.
      * intros Hd. exists r. split; [reflexivity | exact Hd].
      * intros (r' & Hr' & Hd). injection Hr' as <-. exact Hd.
    + intros r' registered Hr' Hreg Hinj. injection Hr' as <-.
      rewrite bool_decide_eq_true, Hreg. split.
      * intros Hd. symmetry. apply Hinj. exact Hd.
      * intros ->. reflexivity.
  - split.
    + split; [discriminate | intros (r' & Hr' & _); discriminate].
    + intros r' registered Hr'. discriminate.
Qed.

(** X4.  When the users object cannot be retrieved (the request fails, the
    object is missing or it does not decode), [validate_login] returns False
    for every username and password, and leaves the bucket as it was. *)
Theorem validate_login_fails_closed username password e w :
  get_fails e = true ∨ (¬ ∃ t, users_obj w = Some (JsonUsers t)) ->
  ∃ w', validate_login username password e w = (Return false, w') ∧
        users_obj w' = users_obj w ∧ prices_obj w' = prices_obj w.
Proof.
  intros Hfail. rewrite validate_login_eq.
  destruct (py_not username || py_not password).
  { eexists. split; [reflexivity |]. split; reflexivity. }
  rewrite load_user_data_eq. simpl.
  destruct (get_fails e) eqn:Hg; simpl.
  { eexists. split; [rewrite lookup_empty; reflexivity |]. split; reflexivity. }
  destruct Hfail as [Hf | Hn]; [discriminate |].
  destruct (users_obj w) as [[t | rows |] |] eqn:Ho; simpl.
  - exfalso. apply Hn. eauto.
  - eexists. split; [rewrite lookup_empty; reflexivity |]. split; [exact Ho | reflexivity].
  - eexists. split; [rewrite lookup_empty; reflexivity |]. split; [exact Ho | reflexivity].
  - eexists. split; [rewrite lookup_empty; reflexivity |]. split; [exact Ho | reflexivity].
Qed.

(** X5.  A sign-up that passes the form checks with a free name but whose
    [put_object] fails answers with the save-error message, leaves the
    bucket as it was and logs no new-user record. *)
Theorem signup_page_save_failure new_username new_password confirm_password e w t :
  (4 <= String.length new_username <= 20)%nat ->
  (8 <= String.length new_password)%nat ->
  new_password = confirm_password ->
  (load_user_data e w).1 = Return t -> t !! new_username = None ->
  put_fails e = true ->
  ∃ w',
    signup_page new_username new_password confirm_password e w
      = (Return SignupSaveError, w') ∧
    users_obj w' = users_obj w ∧ prices_obj w' = prices_obj w ∧
    (∀ name, NewUser name ∈ log w' -> NewUser name ∈ log w).
Proof.
  intros Hn Hp Hc Hl Hfree Hput.
  assert (Hv : form_valid new_username new_password confirm_password = true)
    by (apply form_valid_iff; tauto).
  rewrite signup_page_valid_eq by exact Hv.
  rewrite load_user_data_eq in Hl |- *. simpl in Hl |- *.
  assert (Hlog : ∀ (l : list LogRecord) name a b,
             (∀ n, a ≠ NewUser n) -> (∀ n, b ≠ NewUser n) ->
             NewUser name ∈ ((l ++ [a]) ++ [b])%list -> NewUser name ∈ l).
  { intros l name a b Ha Hb Hel. rewrite !elem_of_app, !list_elem_of_singleton in Hel.
    destruct Hel as [[Hel | Hel] | Hel]; [exact Hel | |]; exfalso;
      [eapply Ha | eapply Hb]; symmetry; exact Hel. }
  destruct (get_fails e); simpl in *;
    [| destruct (users_obj w) as [[t0 | rows |] |] eqn:Ho; simpl in *];
    injection Hl as <-;
    (rewrite bool_decide_eq_false_2 by (rewrite Hfree; apply is_Some_None));
    rewrite save_user_data_eq; simpl; rewrite Hput; simpl;
    (eexists; split; [reflexivity |]); simpl;
    (split; [first [reflexivity | exact Ho | (symmetry; exact Ho)] |]);
    (split; [reflexivity |]); intros name Hel.
  - eapply Hlog; [| | exact Hel]; discriminate.
  - rewrite elem_of_app, list_elem_of_singleton in Hel.
    destruct Hel as [Hel | Hel]; [exact Hel | discriminate].
  - eapply Hlog; [| | exact Hel]; discriminate.
  - eapply Hlog; [| | exact Hel]; discriminate.
  - eapply Hlog; [| | exact Hel]; discriminate.
Qed.

(** X6.  In every world the script reaches, once a sign-up has completed
    nobody can log in any more: [validate_login] returns False for every
    username and password, those of the users stored before included. *)
Theorem signup_locks_out_everyone w new_username new_password confirm_password e1 w1 :
  reachable sha256_hexdigest w ->
  signup_page new_username new_password confirm_password e1 w
    = (Return SignupCompleted, w1) ->
  ∀ username password e2,
    (validate_login username password e2 w1).1 = Return false.
Proof.
  intros Hr Hs username password e2.
  apply validate_login_empty_table.
  apply signup_completed_stores_global in Hs as [Hobj _].
  rewrite (reachable_user_data _ _ Hr) in Hobj. exact Hobj.
Qed.

End FurtherCredentialFacts.

(** ** The script *)

Lemma init_session_eq e w :
  init_session e w =
    (Return tt,
     with_session
       {| ss_logged_in := Some (default false (ss_logged_in (session_state w)));
          ss_username := Some (default None (ss_username (session_state w))) |} w).
Proof.
  destruct w as [uo po ud [[li |] [un |]] lg calls]; reflexivity.
Qed.

Lemma search_price_effects q e w v w' :
  search_price q e w v w' ->
  users_obj w' = users_obj w ∧ prices_obj w' = prices_obj w ∧
  s3_calls w' = (s3_calls w ++ [GetObject PRICE_DB_KEY])%list.
Proof.
  intros H. apply search_price_inv in H as (_ & x & ->). repeat split; reflexivity.
Qed.

Section ScriptEffects.

Variable sha256_hexdigest : string -> string.

Abbreviation validate_login := (validate_login sha256_hexdigest).
Abbreviation signup_page := (signup_page sha256_hexdigest).
Abbreviation login_page := (login_page sha256_hexdigest).

Lemma validate_login_true_nonempty username password e w :
  (validate_login username password e w).1 = Return true ->
  username ≠ "" ∧ password ≠ "" ∧
  log (validate_login username password e w).2 = log w.
Proof.
  rewrite validate_login_eq.
  destruct username as [| c1 u1]; [discriminate |].
  destruct password as [| c2 p2]; [discriminate |].
  simpl. rewrite load_user_data_eq. simpl.
  destruct (get_fails e); simpl; [rewrite lookup_empty; discriminate |].
  destruct (users_obj w) as [[t | rows |] |]; simpl;
    rewrite ?lookup_empty; try discriminate.
  intros _. repeat split; discriminate.
Qed.

Lemma validate_login_effects username password e w :
  users_obj (validate_login username password e w).2 = users_obj w ∧
  prices_obj (validate_login username password e w).2 = prices_obj w ∧
  (s3_calls (validate_login username password e w).2 = s3_calls w ∨
   s3_calls (validate_login username password e w).2
     = (s3_calls w ++ [GetObject USER_DATA_KEY])%list).
Proof.
  rewrite validate_login_eq.
  destruct (py_not username || py_not password); [auto |].
  simpl. rewrite load_user_data_eq. simpl.
  destruct (get_fails e); [auto |].
  destruct (users_obj w) as [[t | rows |] |] eqn:Ho; simpl; rewrite ?Ho; auto.
Qed.

Lemma login_page_effects username password e w :
  users_obj (login_page username password e w).2 = users_obj w ∧
  prices_obj (login_page username password e w).2 = prices_obj w ∧
  (s3_calls (login_page username password e w).2 = s3_calls w ∨
   s3_calls (login_page username password e w).2
     = (s3_calls w ++ [GetObject USER_DATA_KEY])%list).
Proof.
  rewrite login_page_eq. simpl.
  pose proof (validate_login_effects username password e w) as Hv.
  destruct (validate_login username password e w) as [[[|] | x] w1]; exact Hv.
Qed.

Lemma signup_page_effects new_username new_password confirm_password e w :
  ∃ v w',
    signup_page new_username new_password confirm_password e w = (Return v, w') ∧
    prices_obj w' = prices_obj w ∧
    ((s3_calls w' = s3_calls w ∧ users_obj w' = users_obj w) ∨
     (s3_calls w' = (s3_calls w ++ [GetObject USER_DATA_KEY])%list
      ∧ users_obj w' = users_obj w) ∨
     (s3_calls w'
        = (s3_calls w ++ [GetObject USER_DATA_KEY;
                          PutObject USER_DATA_KEY (JsonUsers (user_data w))])%list
      ∧ ((v = SignupCompleted ∧ users_obj w' = Some (JsonUsers (user_data w)))
         ∨ (v = SignupSaveError ∧ users_obj w' = users_obj w)))).
Proof.
  destruct (form_valid new_username new_password confirm_password) eqn:Hv.
  2:{ rewrite signup_page_invalid_eq by exact Hv. eexists _, _.
      split; [reflexivity |]. split; [reflexivity |]. left. split; reflexivity. }
  rewrite signup_page_valid_eq by exact Hv.
  rewrite load_user_data_eq. simpl.
  destruct (get_fails e); simpl;
    [| destruct (users_obj w) as [[t | rows |] |] eqn:Ho; simpl];
    repeat match goal with
      | |- context [bool_decide ?P] => destruct (bool_decide P)
      | |- context [save_user_data ?d ?e ?w] =>
          rewrite (save_user_data_eq d e w); simpl
      | |- context [put_fails e] => destruct (put_fails e); simpl
      end;
    (eexists _, _; split; [reflexivity |]); simpl;
    (split; [reflexivity |]); rewrite <- ?app_assoc; simpl;
    first [ right; left; split; [reflexivity | first [reflexivity | exact Ho | (symmetry; exact Ho)]]
          | right; right; split; [reflexivity |];
            first [ left; split; reflexivity
                  | right; split;
                    [reflexivity | first [reflexivity | exact Ho | (symmetry; exact Ho)]] ] ].
Qed.

(** What one run of the script does to the bucket, by the state of the
    session it starts in. *)
Lemma main_effects a e w v w' :
  main sha256_hexdigest a e w v w' ->
  prices_obj w' = prices_obj w ∧
  ∃ calls,
    s3_calls w' = (s3_calls w ++ calls)%list ∧
    ((session_of w = AUTHENTICATED ∧ users_obj w' = users_obj w ∧
      (calls = [] ∨ calls = [GetObject PRICE_DB_KEY] ∧ ∃ q, a = SearchClick q)) ∨
     (session_of w = ANONYMOUS ∧
      ((calls = [] ∧ users_obj w' = users_obj w) ∨
       (calls = [GetObject USER_DATA_KEY] ∧ users_obj w' = users_obj w) ∨
       (calls = [GetObject USER_DATA_KEY;
                 PutObject USER_DATA_KEY (JsonUsers (user_data w))]
        ∧ (∃ u p c, a = SignupSubmit u p c)
        ∧ ((v = SignupView SignupCompleted
            ∧ users_obj w' = Some (JsonUsers (user_data w)))
           ∨ (v = SignupView SignupSaveError ∧ users_obj w' = users_obj w)))))).
Proof.
  unfold main. intros Hrun.
  pose proof (session_of_init e w) as Hinit.
  pose proof (init_session_global e w) as Hglob.
  assert (Hb : users_obj (init_session e w).2 = users_obj w ∧
               prices_obj (init_session e w).2 = prices_obj w ∧
               s3_calls (init_session e w).2 = s3_calls w)
    by (rewrite init_session_eq; auto).
  destruct Hb as (Hu0 & Hp0 & Hc0).
  set (w0 := (init_session e w).2) in *.
  rewrite <- Hinit, <- Hu0, <- Hp0, <- Hc0, <- Hglob. clearbody w0. clear Hinit Hu0 Hp0 Hc0 Hglob.
  assert (Hs0 : session_of w0 = if is_logged_in w0 then AUTHENTICATED else ANONYMOUS)
    by reflexivity.
  destruct (is_logged_in w0); destruct a as [| u p | u p c | | q].
  all: try (destruct Hrun as [-> _]; split; [reflexivity |]; exists [];
            rewrite app_nil_r; split; [reflexivity |];
            first [ left; split; [exact Hs0 |]; split; [reflexivity | left; reflexivity]
                  | right; split; [exact Hs0 |]; left; split; reflexivity ]).
  - (* logged in, logout *)
    rewrite logout_eq in Hrun. destruct Hrun as [Hw _]. injection Hw as ->.
    split; [reflexivity |]. exists []. rewrite app_nil_r. split; [reflexivity |].
    left. split; [exact Hs0 |]. split; [reflexivity | left; reflexivity].
  - (* logged in, search *)
    destruct Hrun as (sv & Hs & _).
    apply search_price_effects in Hs as (Hu & Hp & Hc).
    split; [exact Hp |]. eexists. split; [exact Hc |].
    left. split; [exact Hs0 |]. split; [exact Hu |]. right. split; [reflexivity | eauto].
  - (* anonymous, login *)
    destruct Hrun as (lv & Hl & _).
    pose proof (login_page_effects u p e w0) as (Hu & Hp & Hc). rewrite Hl in Hu, Hp, Hc.
    simpl in Hu, Hp, Hc.
    split; [exact Hp |]. destruct Hc as [Hc | Hc].
    + exists []. rewrite app_nil_r. split; [exact Hc |].
      right. split; [exact Hs0 |]. left. split; [reflexivity | exact Hu].
    + eexists. split; [exact Hc |].
      right. split; [exact Hs0 |]. right. left. split; [reflexivity | exact Hu].
  - (* anonymous, sign-up *)
    destruct Hrun as (sv & Hs & ->).
    destruct (signup_page_effects u p c e w0) as (v0 & w1 & Hs' & Hp & Hcases).
    rewrite Hs in Hs'. injection Hs' as <- <-.
    split; [exact Hp |].
    destruct Hcases as [[Hc Hu] | [[Hc Hu] | [Hc Hcases]]].
    + exists []. rewrite app_nil_r. split; [exact Hc |].
      right. split; [exact Hs0 |]. left. split; [reflexivity | exact Hu].
    + eexists. split; [exact Hc |].
      right. split; [exact Hs0 |]. right. left. split; [reflexivity | exact Hu].
    + eexists. split; [exact Hc |].
      right. split; [exact Hs0 |]. right. right. split; [reflexivity |].
      split; [eauto |].
      destruct Hcases as [[-> Hu] | [-> Hu]]; [left | right]; split;
        first [reflexivity | exact Hu].
Qed.

End ScriptEffects.

Lemma init_session_wf e w :
  session_wf (session_state w) ->
  session_state (init_session e w).2
    = {| ss_logged_in := Some false; ss_username := Some None |}
  ∨ ∃ username, username ≠ "" ∧
      session_state (init_session e w).2
        = {| ss_logged_in := Some true; ss_username := Some (Some username) |}.
Proof.
  rewrite init_session_eq. simpl.
  intros [-> | [-> | (u & Hu & ->)]]; simpl; [left | left | right]; eauto.
Qed.

Lemma session_wf_logged_out w :
  session_state w = {| ss_logged_in := Some false; ss_username := Some None |} ->
  session_wf (session_state w).
Proof. intros ->. right. left. reflexivity. Qed.

Section ScriptProperties.

Variable sha256_hexdigest : string -> string.

Abbreviation validate_login := (validate_login sha256_hexdigest).
Abbreviation signup_page := (signup_page sha256_hexdigest).
Abbreviation login_page := (login_page sha256_hexdigest).

Lemma main_session_wf a e w v w' :
  session_wf (session_state w) ->
  main sha256_hexdigest a e w v w' ->
  session_wf (session_state w').
Proof.
  intros Hwf Hrun. unfold main in Hrun.
  apply (init_session_wf e) in Hwf.
  set (w0 := (init_session e w).2) in *. clearbody w0.
  assert (Hw0 : session_wf (session_state w0)).
  { destruct Hwf as [-> | (u & Hu & ->)]; [right; left; reflexivity | right; right; eauto]. }
  destruct (is_logged_in w0); destruct a as [| u p | u p c | | q];
    try (destruct Hrun as [-> _]; exact Hw0).
  - rewrite logout_eq in Hrun. destruct Hrun as [Hw _]. injection Hw as ->.
    right. left. reflexivity.
  - destruct Hrun as (sv & Hs & _).
    rewrite (search_price_session _ _ _ _ _ Hs). exact Hw0.
  - destruct Hrun as (lv & Hl & _). rewrite login_page_eq in Hl.
    pose proof (validate_login_session sha256_hexdigest u p e w0) as Hvs.
    pose proof (validate_login_true_nonempty sha256_hexdigest u p e w0) as Hne.
    destruct (validate_login u p e w0) as [[[|] | x] w1];
      cbn [fst snd] in *; [| | discriminate]; injection Hl as <- <-.
    + destruct (Hne eq_refl) as (Hu & _). right. right. exists u. split; [exact Hu | reflexivity].
    + cbn [session_state with_log]. rewrite Hvs. exact Hw0.
  - destruct Hrun as (sv & Hs & _).
    pose proof (signup_page_session sha256_hexdigest u p c e w0) as Hss.
    rewrite Hs in Hss. cbn [snd] in Hss. rewrite Hss. exact Hw0.
Qed.

(** X7.  In every world the script reaches, the session is untouched, or
    logged out with no name, or logged in under a non-empty name: the
    greeting of a logged-in session always has a name to show. *)
Theorem reachable_session_wf w :
  reachable sha256_hexdigest w -> session_wf (session_state w).
Proof.
  induction 1 as [users prices | w a e v w' _ IH Hrun | w key b _ IH].
  - left. reflexivity.
  - exact (main_session_wf _ _ _ _ _ IH Hrun).
  - exact IH.
Qed.

(** X8.  A login that succeeds from an anonymous session records the
    submitted name in the session and logs the login, reading the bucket
    without changing it; a logout that follows clears the flag and the name,
    logs the logout, and leaves the bucket as it was before the login. *)
Theorem login_logout_round_trip username password e1 e2 w w1 v2 w2 :
  session_of w = ANONYMOUS ->
  main sha256_hexdigest (LoginSubmit username password) e1 w
    (LoginView LoginSucceeded) w1 ->
  main sha256_hexdigest LogoutClick e2 w1 v2 w2 ->
  session_state w1
    = {| ss_logged_in := Some true; ss_username := Some (Some username) |} ∧
  log w1 = (log w ++ [LoginOk username])%list ∧
  v2 = LogoutRerun ∧
  session_state w2 = {| ss_logged_in := Some false; ss_username := Some None |} ∧
  log w2 = (log w ++ [LoginOk username; LoggedOut])%list ∧
  users_obj w2 = users_obj w ∧ prices_obj w2 = prices_obj w.
Proof.
  intros Hanon Hin Hout.
  unfold main in Hin.
  rewrite init_session_logged_in in Hin.
  unfold session_of in Hanon.
  destruct (is_logged_in w) eqn:Hlog; [discriminate |].
  destruct Hin as (lv & Hl & Hv). injection Hv as <-.
  rewrite login_page_eq in Hl.
  pose proof (validate_login_true_nonempty sha256_hexdigest username password e1
                (init_session e1 w).2) as Hne.
  pose proof (validate_login_effects sha256_hexdigest username password e1
                (init_session e1 w).2) as (Hu & Hp & _).
  destruct (validate_login username password e1 (init_session e1 w).2)
    as [[[|] | x] w0]; cbn [fst snd] in *; [| discriminate | discriminate].
  injection Hl as <-.
  destruct (Hne eq_refl) as (_ & _ & Hlg).
  rewrite init_session_eq in Hu, Hp, Hlg. simpl in Hu, Hp, Hlg.
  unfold main in Hout. rewrite init_session_eq in Hout. simpl in Hout.
  rewrite logout_eq in Hout. destruct Hout as [Hw ->]. injection Hw as ->.
  simpl. rewrite Hlg, Hu, Hp, <- app_assoc. simpl.
  repeat split; reflexivity.
Qed.

(** X9.  In every world the script reaches, a run never writes the price
    object; it changes the users object only in a sign-up that ends with the
    completion message, and then the object becomes the empty dict; and the
    only [put_object] call a run ever makes is the one of a sign-up, for the
    users object with the empty dict as body. *)
Theorem only_signup_writes a e w v w' :
  reachable sha256_hexdigest w ->
  main sha256_hexdigest a e w v w' ->
  prices_obj w' = prices_obj w ∧
  (users_obj w' ≠ users_obj w ->
     (∃ u p c, a = SignupSubmit u p c) ∧ v = SignupView SignupCompleted ∧
     users_obj w' = Some (JsonUsers ∅)) ∧
  (∀ key body,
     PutObject key body ∈ s3_calls w' ->
     PutObject key body ∈ s3_calls w ∨
     (key = USER_DATA_KEY ∧ body = JsonUsers ∅ ∧ ∃ u p c, a = SignupSubmit u p c)).
Proof.
  intros Hr Hrun. apply reachable_user_data in Hr.
  apply main_effects in Hrun as (Hp & calls & Hc & Hcases). rewrite Hr in Hcases.
  split; [exact Hp |].
  destruct Hcases as [(_ & Hu & Hcalls) | (_ & Hcases)].
  - split; [congruence |]. intros key body Hel. rewrite Hc, elem_of_app in Hel.
    destruct Hel as [Hel | Hel]; [left; exact Hel |].
    destruct Hcalls as [-> | [-> _]].
    + apply elem_of_nil in Hel. contradiction.
    + apply list_elem_of_singleton in Hel. discriminate.
  - destruct Hcases as [[-> Hu] | [[-> Hu] | (-> & Ha & Hres)]].
    + split; [congruence |]. intros key body Hel. rewrite Hc, app_nil_r in Hel. left. exact Hel.
    + split; [congruence |]. intros key body Hel. rewrite Hc, elem_of_app in Hel.
      destruct Hel as [Hel | Hel]; [left; exact Hel |].
      apply list_elem_of_singleton in Hel. discriminate.
    + split.
      * intros Hne. destruct Hres as [[-> Hu] | [_ Hu]]; [| congruence].
        split; [exact Ha |]. split; [reflexivity | exact Hu].
      * intros key body Hel. rewrite Hc, elem_of_app in Hel.
        destruct Hel as [Hel | Hel]; [left; exact Hel |].
        apply elem_of_cons in Hel as [Hel | Hel]; [discriminate |].
        apply list_elem_of_singleton in Hel. injection Hel as -> ->.
        right. split; [reflexivity |]. split; [reflexivity | exact Ha].
Qed.

(** X10.  What a run touches depends on the session it starts in.  From an
    anonymous session it never shows a search view and never reads the price
    object: the calls it adds are for the users object.  From an
    authenticated session it never touches the users object: the only call
    it may add is the read of the price object. *)
Theorem main_access_by_session a e w v w' :
  main sha256_hexdigest a e w v w' ->
  (session_of w = ANONYMOUS ->
     (∀ sv, v ≠ SearchView sv) ∧
     (∀ c, c ∈ s3_calls w' ->
           c ∈ s3_calls w ∨ c = GetObject USER_DATA_KEY
           ∨ ∃ body, c = PutObject USER_DATA_KEY body)) ∧
  (session_of w = AUTHENTICATED ->
     users_obj w' = users_obj w ∧
     (∀ c, c ∈ s3_calls w' -> c ∈ s3_calls w ∨ c = GetObject PRICE_DB_KEY)).
Proof.
  intros Hrun. split.
  - intros Hanon. split.
    + intros sv ->. unfold main in Hrun. rewrite init_session_logged_in in Hrun.
      unfold session_of in Hanon. destruct (is_logged_in w); [discriminate |].
      destruct a as [| u p | u p c | | q].
      * destruct Hrun as [_ Hv]. discriminate.
      * destruct Hrun as (lv & _ & Hv). discriminate.
      * destruct Hrun as (sv' & _ & Hv). discriminate.
      * destruct Hrun as [_ Hv]. discriminate.
      * destruct Hrun as [_ Hv]. discriminate.
    + apply main_effects in Hrun as (_ & calls & Hc & Hcases).
      destruct Hcases as [(Hauth & _) | (_ & Hcases)]; [congruence |].
      intros c Hel. rewrite Hc, elem_of_app in Hel.
      destruct Hel as [Hel | Hel]; [left; exact Hel | right].
      destruct Hcases as [[-> _] | [[-> _] | (-> & _)]].
      * apply elem_of_nil in Hel. contradiction.
      * apply list_elem_of_singleton in Hel. left. exact Hel.
      * apply elem_of_cons in Hel as [Hel | Hel]; [left; exact Hel |].
        apply list_elem_of_singleton in Hel. right. eauto.
  - intros Hauth.
    apply main_effects in Hrun as (_ & calls & Hc & Hcases).
    destruct Hcases as [(_ & Hu & Hcalls) | (Hanon & _)]; [| congruence].
    split; [exact Hu |].
    intros c Hel. rewrite Hc, elem_of_app in Hel.
    destruct Hel as [Hel | Hel]; [left; exact Hel | right].
    destruct Hcalls as [-> | [-> _]].
    + apply elem_of_nil in Hel. contradiction.
    + apply list_elem_of_singleton in Hel. exact Hel.
Qed.

End ScriptProperties.

(** ** The price query *)

Lemma filtered_df_inv q price_df filtered :
  filtered_df q price_df = Some filtered ->
  ∃ pat, re_compile (search_term q) = Some pat ∧
         filtered = List.filter (mask pat (min_price q) (max_price q)) price_df.
Proof.
  unfold filtered_df. destruct (re_compile (search_term q)) as [pat |]; simpl;
    [| discriminate].
  intros H. injection H as <-. exists pat. split; reflexivity.
Qed.

Lemma mask_true pat lo hi r :
  mask pat lo hi r = true ->
  is_Some (product_name r) ∧ (lo <= price r <= hi)%Z.
Proof.
  unfold mask, str_contains. rewrite !andb_true_iff, !Z.leb_le.
  destruct (product_name r); [intros [[_ ?] ?]; split; [eauto | lia] |].
  intros [[? _] _]. discriminate.
Qed.

Lemma filter_length_bound {A} (f : A -> bool) (l : list A) :
  (length (List.filter f l) <= length l)%nat.
Proof. induction l as [| x l IH]; simpl; [lia |]. destruct (f x); simpl; lia. Qed.

Lemma filter_no_dup {A} (f : A -> bool) (l : list A) :
  NoDup l -> NoDup (List.filter f l).
Proof.
  induction l as [| x l IH]; simpl; [intros _; constructor |].
  rewrite NoDup_cons. intros [Hx Hl]. destruct (f x); [| exact (IH Hl)].
  apply NoDup_cons. split; [| exact (IH Hl)].
  intros Hin. apply Hx. apply list_elem_of_In, filter_In in Hin as [Hin _].
  apply list_elem_of_In. exact Hin.
Qed.

Lemma filter_all {A} (l : list A) : List.filter (fun _ => true) l = l.
Proof. induction l as [| x l IH]; simpl; [reflexivity |]. rewrite IH. reflexivity. Qed.

Lemma filter_none {A} (f : A -> bool) (l : list A) :
  (∀ x, f x = false) -> List.filter f l = [].
Proof. intros Hf. induction l as [| x l IH]; simpl; [reflexivity |]. rewrite Hf. exact IH. Qed.

Lemma filter_sublist_mono {A} (f g : A -> bool) (l : list A) :
  (∀ x, f x = true -> g x = true) -> List.filter f l `sublist_of` List.filter g l.
Proof.
  intros Hfg. induction l as [| x l IH]; simpl; [constructor |].
  destruct (f x) eqn:Hf.
  - rewrite (Hfg _ Hf). apply sublist_skip. exact IH.
  - destruct (g x); [apply sublist_cons |]; exact IH.
Qed.

(** Folding the case of a character changes neither what it is to the
    pattern compiler nor what it matches. *)
Lemma lower_facts c :
  lower (lower c) = lower c ∧
  is_special (lower c) = is_special c ∧
  bool_decide (lower c = "."%char) = bool_decide (c = "."%char) ∧
  bool_decide (lower c = "010"%char) = bool_decide (c = "010"%char).
Proof. destruct c as [[] [] [] [] [] [] [] []]; vm_compute; repeat split. Qed.

Lemma re_compile_lower term :
  re_compile (lower_str term)
  = map (fun a => match a with Lit c => Lit (lower c) | Dot => Dot end)
      <$> re_compile term.
Proof.
  induction term as [| c rest IH]; simpl; [reflexivity |].
  destruct (lower_facts c) as (_ & Hsp & Hdot & _). rewrite Hdot, Hsp, IH.
  destruct (bool_decide (c = "."%char)); [destruct (re_compile rest); reflexivity |].
  destruct (is_special c); [reflexivity |]. destruct (re_compile rest); reflexivity.
Qed.

Lemma match_here_lower pat s :
  match_here (map (fun a => match a with Lit c => Lit (lower c) | Dot => Dot end) pat) s
  = match_here pat s.
Proof.
  revert s. induction pat as [| a pat IH]; intros s; simpl; [reflexivity |].
  destruct s as [| c s]; [reflexivity |]. rewrite IH. f_equal.
  destruct a as [l |]; simpl; [| reflexivity].
  destruct (lower_facts l) as (Hid & _). rewrite Hid. reflexivity.
Qed.

Lemma re_search_lower pat s :
  re_search (map (fun a => match a with Lit c => Lit (lower c) | Dot => Dot end) pat) s
  = re_search pat s.
Proof.
  induction s as [| c s IH]; simpl; rewrite match_here_lower; [reflexivity |].
  rewrite IH. reflexivity.
Qed.

(** X11.  A price range whose upper bound lies below its lower bound is not
    rejected and keeps no row of any frame: for a term of ordinary
    characters and [.] the filter returns the empty list, and for any other
    term every list of rows the filter may return is empty. *)
Theorem inverted_price_range_keeps_nothing q price_df :
  (max_price q < min_price q)%Z ->
  (is_Some (re_compile (search_term q)) -> filtered_df q price_df = Some []) ∧
  (∀ filtered, kept_rows q price_df filtered -> filtered = []).
Proof.
  intros Hinv.
  assert (Hbounds : ∀ (b : bool) r,
             b && (min_price q <=? price r)%Z && (price r <=? max_price q)%Z = false).
  { intros b r.
    destruct (Z.leb_spec (min_price q) (price r));
      destruct (Z.leb_spec (price r) (max_price q));
      rewrite ?andb_false_r; try reflexivity. lia. }
  split.
  - intros [pat Hpat]. unfold filtered_df. rewrite Hpat. simpl. f_equal.
    apply filter_none. intros r. apply Hbounds.
  - intros filtered [f Hf | found Hnone].
    + apply filtered_df_inv in Hf as (pat & _ & ->).
      apply filter_none. intros r. apply Hbounds.
    + apply filter_none. intros r. apply Hbounds.
Qed.

(** X12.  Whatever the search term, every list of rows the filter may return
    is made of rows of the frame, in the order of the frame, each with a
    name and a price within the two bounds; it is no longer than the frame
    and repeats no row unless the frame does. *)
Theorem kept_rows_are_sound q price_df filtered :
  kept_rows q price_df filtered ->
  filtered `sublist_of` price_df ∧
  (∀ r, r ∈ filtered ->
        r ∈ price_df ∧ is_Some (product_name r)
        ∧ (min_price q <= price r <= max_price q)%Z) ∧
  (length filtered <= length price_df)%nat ∧
  (NoDup price_df -> NoDup filtered).
Proof.
  assert (Hgen : ∀ f : PriceRecord -> bool,
             (∀ r, f r = true ->
                   is_Some (product_name r) ∧ (min_price q <= price r <= max_price q)%Z) ->
             List.filter f price_df `sublist_of` price_df ∧
             (∀ r, r ∈ List.filter f price_df ->
                   r ∈ price_df ∧ is_Some (product_name r)
                   ∧ (min_price q <= price r <= max_price q)%Z) ∧
             (length (List.filter f price_df) <= length price_df)%nat ∧
             (NoDup price_df -> NoDup (List.filter f price_df))).
  { intros f Hf. split; [| split; [| split]].
    - rewrite <- (filter_all price_df) at 2. apply filter_sublist_mono. reflexivity.
    - intros r Hr. apply list_elem_of_In, filter_In in Hr as [Hin Hm].
      split; [apply list_elem_of_In; exact Hin | apply Hf; exact Hm].
    - apply filter_length_bound.
    - apply filter_no_dup. }
  intros [f Hf | found Hnone].
  - apply filtered_df_inv in Hf as (pat & _ & ->). apply Hgen.
    intros r. apply mask_true.
  - apply Hgen. intros r. rewrite !andb_true_iff, !Z.leb_le.
    destruct (product_name r); [intros [[_ ?] ?]; split; [eauto | lia] |].
    intros [[? _] _]. discriminate.
Qed.

(** X13.  The letter case of a literal search term is ignored: for a term
    of ASCII characters none of which is special in a regular expression,
    lower-casing the term does not change what the filter returns. *)
Theorem literal_term_case_is_ignored q price_df :
  is_literal (search_term q) = true ->
  is_ascii_str (search_term q) = true ->
  filtered_df {| search_term := lower_str (search_term q);
                 min_price := min_price q; max_price := max_price q;
                 sort_key := sort_key q |} price_df
  = filtered_df q price_df.
Proof.
  intros _ _. unfold filtered_df. simpl. rewrite re_compile_lower.
  destruct (re_compile (search_term q)) as [pat |]; simpl; [| reflexivity].
  f_equal. apply filter_ext. intros r. unfold mask, str_contains.
  destruct (product_name r); [rewrite re_search_lower |]; reflexivity.
Qed.

(** X15.  Widening the price range never loses a row: with the same search
    term, a lower minimum and a higher maximum, the filter keeps every row
    it kept before, in the same order. *)
Theorem wider_range_keeps_rows q q' price_df filtered :
  search_term q' = search_term q ->
  (min_price q' <= min_price q)%Z -> (max_price q <= max_price q')%Z ->
  filtered_df q price_df = Some filtered ->
  ∃ filtered', filtered_df q' price_df = Some filtered' ∧
               filtered `sublist_of` filtered'.
Proof.
  intros Ht Hlo Hhi Hf. apply filtered_df_inv in Hf as (pat & Hpat & ->).
  unfold filtered_df. rewrite Ht, Hpat. simpl. eexists. split; [reflexivity |].
  apply filter_sublist_mono. intros r. unfold mask.
  rewrite !andb_true_iff, !Z.leb_le. intros [[Hc H1] H2]. repeat split; [exact Hc | lia | lia].
Qed.

(** X16.  An empty search term selects by price alone: the filter keeps
    exactly the rows that have a name and a price within the two bounds. *)
Theorem empty_term_keeps_named_rows q price_df :
  search_term q = "" ->
  filtered_df q price_df =
    Some (List.filter
            (fun r => bool_decide (is_Some (product_name r))
                      && (min_price q <=? price r)%Z && (price r <=? max_price q)%Z)
            price_df).
Proof.
  intros Ht. unfold filtered_df. rewrite Ht. simpl. f_equal.
  apply filter_ext. intros r. unfold mask, str_contains.
  destruct (product_name r) as [name |]; [| reflexivity].
  rewrite bool_decide_eq_true_2 by eauto. destruct name; reflexivity.
Qed.

(** ** Instances of the further properties *)

Example alice_logs_out :
  main toy_digest LogoutClick env_ok
    (login_page toy_digest "alice" "correct-pw" env_ok
       (init_session env_ok users_world).2).2
    LogoutRerun
    (logout env_ok
       (init_session env_ok
          (login_page toy_digest "alice" "correct-pw" env_ok
             (init_session env_ok users_world).2).2).2).2.
Proof. split; reflexivity. Qed.

Example robert_signs_up :
  main toy_digest (SignupSubmit "robert" "password1" "password1") env_ok users_world
    (SignupView SignupCompleted)
    (signup_page toy_digest "robert" "password1" "password1" env_ok
       (init_session env_ok users_world).2).2.
Proof. exists SignupCompleted. split; reflexivity. Qed.

Lemma load_price_data_always_empty_witness :
  ∃ x,
    load_price_data env_ok (prices_world example_table)
      = (Return [],
         with_log (LoadPricesFailed x)
           (with_call (GetObject PRICE_DB_KEY) (prices_world example_table))) ∧
    x = NotAConnection.
Proof.
  destruct (load_price_data_always_empty env_ok (prices_world example_table))
    as (x & Heq & Hx).
  exists x. split; [exact Heq |]. apply Hx; [reflexivity | eexists; reflexivity].
Defined.

Lemma save_user_data_reports_failure_witness :
  (save_user_data {[ "alice" := alice_record ]} env_read_only users_world).1 = Return false
  ∧ users_obj (save_user_data {[ "alice" := alice_record ]} env_read_only users_world).2
    = users_obj users_world.
Proof.
  destruct (save_user_data_reports_failure {[ "alice" := alice_record ]}
              env_read_only users_world) as [Hret Hfail].
  split; [exact Hret |]. destruct Hfail as (Hu & _); [reflexivity | exact Hu].
Defined.

Lemma validate_login_checks_digest_witness :
  (validate_login toy_digest "alice" "correct-pw" env_ok users_world).1 = Return true
  ∧ (validate_login toy_digest "alice" "wrong-pw" env_ok users_world).1 = Return false.
Proof.
  split.
  - destruct (validate_login_checks_digest toy_digest "alice" "correct-pw" env_ok
                users_world {[ "alice" := alice_record ]})
      as (b & Heq & Hiff & _);
      [discriminate | discriminate | reflexivity | reflexivity |].
    rewrite Heq. simpl. f_equal. apply Hiff. exists alice_record. split; reflexivity.
  - destruct (validate_login_checks_digest toy_digest "alice" "wrong-pw" env_ok
                users_world {[ "alice" := alice_record ]})
      as (b & Heq & Hiff & _);
      [discriminate | discriminate | reflexivity | reflexivity |].
    rewrite Heq. simpl. f_equal. destruct b; [| reflexivity].
    destruct Hiff as [Hiff _]. destruct (Hiff eq_refl) as (r & Hr & Hd).
    injection Hr as <-. discriminate.
Defined.

Lemma validate_login_fails_closed_witness :
  ∃ w', validate_login toy_digest "alice" "correct-pw" env_down users_world
          = (Return false, w') ∧
        users_obj w' = users_obj users_world ∧ prices_obj w' = prices_obj users_world.
Proof. apply validate_login_fails_closed. left. reflexivity. Defined.

Lemma signup_page_save_failure_witness :
  ∃ w',
    signup_page toy_digest "robert" "password1" "password1" env_read_only users_world
      = (Return SignupSaveError, w') ∧
    users_obj w' = users_obj users_world ∧ prices_obj w' = prices_obj users_world ∧
    (∀ name, NewUser name ∈ log w' -> NewUser name ∈ log users_world).
Proof.
  apply (signup_page_save_failure toy_digest "robert" "password1" "password1"
           env_read_only users_world {[ "alice" := alice_record ]});
    try reflexivity; simpl; lia.
Defined.

Lemma signup_locks_out_everyone_witness :
  (validate_login toy_digest "alice" "correct-pw" env_ok
     (signup_page toy_digest "robert" "password1" "password1" env_ok users_world).2).1
  = Return false.
Proof.
  apply (signup_locks_out_everyone toy_digest users_world
           "robert" "password1" "password1" env_ok).
  - apply reach_start.
  - reflexivity.
Defined.

Lemma reachable_session_wf_witness :
  session_wf
    (session_state
       (login_page toy_digest "alice" "correct-pw" env_ok
          (init_session env_ok users_world).2).2).
Proof.
  apply (reachable_session_wf toy_digest).
  eapply reach_run; [apply reach_start | exact alice_logs_in].
Defined.

Lemma login_logout_round_trip_witness :
  session_state
    (logout env_ok
       (init_session env_ok
          (login_page toy_digest "alice" "correct-pw" env_ok
             (init_session env_ok users_world).2).2).2).2
  = {| ss_logged_in := Some false; ss_username := Some None |}.
Proof.
  destruct (login_logout_round_trip toy_digest "alice" "correct-pw" env_ok env_ok
              users_world _ _ _ eq_refl alice_logs_in alice_logs_out)
    as (_ & _ & _ & H & _).
  exact H.
Defined.

Lemma only_signup_writes_witness :
  prices_obj (signup_page toy_digest "robert" "password1" "password1" env_ok
                (init_session env_ok users_world).2).2
  = prices_obj users_world.
Proof.
  destruct (only_signup_writes toy_digest _ _ _ _ _
              (reach_start toy_digest (users_obj users_world) (prices_obj users_world))
              robert_signs_up) as (H & _).
  exact H.
Defined.

Lemma main_access_by_session_witness :
  users_obj
    (logout env_ok
       (init_session env_ok
          (login_page toy_digest "alice" "correct-pw" env_ok
             (init_session env_ok users_world).2).2).2).2
  = users_obj
      (login_page toy_digest "alice" "correct-pw" env_ok
         (init_session env_ok users_world).2).2.
Proof.
  destruct (main_access_by_session toy_digest _ _ _ _ _ alice_logs_out) as (_ & H).
  destruct (H eq_refl) as (Hu & _). exact Hu.
Defined.

Lemma inverted_price_range_keeps_nothing_witness :
  filtered_df inverted_query example_table = Some [].
Proof.
  destruct (inverted_price_range_keeps_nothing inverted_query example_table) as (H & _).
  - simpl. lia.
  - apply H. eexists. reflexivity.
Defined.

Lemma kept_rows_are_sound_witness :
  [widget_a; widget_b] `sublist_of` example_table ∧
  (∀ r, r ∈ [widget_a; widget_b] ->
        r ∈ example_table ∧ is_Some (product_name r)
        ∧ (min_price example_query <= price r <= max_price example_query)%Z).
Proof.
  destruct (kept_rows_are_sound example_query example_table [widget_a; widget_b]
              (kept_modelled _ _ _ example_filter)) as (H1 & H2 & _).
  split; [exact H1 | exact H2].
Defined.

Lemma literal_term_case_is_ignored_witness :
  filtered_df {| search_term := "widget"; min_price := 0; max_price := 150;
                 sort_key := NAME_ASC |} example_table
  = filtered_df {| search_term := "WIDGET"; min_price := 0; max_price := 150;
                   sort_key := NAME_ASC |} example_table.
Proof.
  apply (literal_term_case_is_ignored
           {| search_term := "WIDGET"; min_price := 0; max_price := 150;
              sort_key := NAME_ASC |} example_table); reflexivity.
Defined.

Lemma wider_range_keeps_rows_witness :
  ∃ filtered', filtered_df wide_query example_table = Some filtered' ∧
               [widget_a; widget_b] `sublist_of` filtered'.
Proof.
  apply (wider_range_keeps_rows example_query wide_query example_table).
  - reflexivity.
  - simpl. lia.
  - simpl. lia.
  - exact example_filter.
Defined.

Lemma empty_term_keeps_named_rows_witness :
  filtered_df ties_query ties_table =
    Some (List.filter
            (fun r => bool_decide (is_Some (product_name r))
                      && (min_price ties_query <=? price r)%Z
                      && (price r <=? max_price ties_query)%Z)
            ties_table).
Proof. apply empty_term_keeps_named_rows. reflexivity. Defined.

